(** * OmniScience workspace (src/App.tsx): a shallow embedding

  The React component [App] keeps the workspace in a handful of state
  cells ([files], [openTabIds], [activeTabId], [isProcessing],
  [chatInput], ...).  Event handlers are modelled as functions on a record
  of those cells; the two editors that re-encode a file's text
  ([SlideEditor], [SheetEditor]) are modelled as functions on strings.

  Strings are Rocq strings: a JavaScript string whose code units are all
  below 256. *)

From Stdlib Require Import String Ascii List ZArith Bool Arith Lia DecimalString.
Import ListNotations.
Set Warnings "-register-all".
Open Scope string_scope.
Open Scope list_scope.

(* ================================================================== *)
(** * Part I: definitions                                              *)
(* ================================================================== *)

(** ** String and array primitives of the host language *)

Module Js.

Definition newline : ascii := "010"%char.
Definition comma : ascii := ","%char.

(** [s.split(sep)] for a one-character separator: never the empty array. *)
Fixpoint split (sep : ascii) (s : string) : list string :=
  match s with
  | EmptyString => [EmptyString]
  | String c s' =>
      if Ascii.eqb c sep then EmptyString :: split sep s'
      else match split sep s' with
           | [] => [String c EmptyString]
           | h :: t => String c h :: t
           end
  end.

(** [a.join(sep)] on an array of strings. *)
Fixpoint join (sep : string) (a : list string) : string :=
  match a with
  | [] => EmptyString
  | [x] => x
  | x :: rest => (x ++ sep ++ join sep rest)%string
  end.

(** Number of occurrences of a character. *)
Fixpoint count_char (c : ascii) (s : string) : nat :=
  match s with
  | EmptyString => 0
  | String d s' => (if Ascii.eqb d c then 1 else 0) + count_char c s'
  end.

(** Occurrences of a character in the elements of an array of strings. *)
Fixpoint count_in (c : ascii) (a : list string) : nat :=
  match a with
  | [] => 0
  | x :: rest => count_char c x + count_in c rest
  end.

(** [a[i] = v] on an array of strings.  Inside the array the slot is
    overwritten; past its end JavaScript grows the array, and the holes
    that appear render as the empty string under [join]. *)
Definition array_set (i : nat) (v : string) (a : list string) : list string :=
  if Nat.ltb i (List.length a) then firstn i a ++ v :: skipn (S i) a
  else a ++ repeat EmptyString (i - List.length a) ++ [v].

(** Replace the [i]-th element of a list, if there is one. *)
Fixpoint list_set {A : Type} (i : nat) (v : A) (a : list A) : list A :=
  match a, i with
  | [], _ => []
  | _ :: t, O => v :: t
  | h :: t, S j => h :: list_set j v t
  end.

End Js.

(** ** SlideEditor (App.tsx, 182-219) *)

Module SlideEditor.

Definition nl : string := String Js.newline EmptyString.

(** [value] of the title input: [file.content.split('\n')[0] || '']. *)
Definition title (content : string) : string :=
  match Js.split Js.newline content with
  | h :: _ => h
  | [] => EmptyString
  end.

(** [value] of the body textarea:
    [file.content.split('\n').slice(1).join('\n')]. *)
Definition body (content : string) : string :=
  Js.join nl (tl (Js.split Js.newline content)).

(** Title [onChange]: [lines[0] = e.target.value; onChange(lines.join('\n'))]. *)
Definition title_onChange (content value : string) : string :=
  let lines := Js.split Js.newline content in
  Js.join nl (Js.array_set 0 value lines).

(** Body [onChange]: [onChange(lines[0] + '\n' + rest)]. *)
Definition body_onChange (content rest : string) : string :=
  let lines := Js.split Js.newline content in
  match lines with
  | h :: _ => (h ++ nl ++ rest)%string
  | [] => ("undefined" ++ nl ++ rest)%string
  end.

(** The two inputs of the editor, and the text each hands to [onChange]. *)
Inductive field : Type := Title | Body.

Definition onChange (f : field) (content value : string) : string :=
  match f with
  | Title => title_onChange content value
  | Body => body_onChange content value
  end.

End SlideEditor.

(** ** SheetEditor (App.tsx, 221-265) *)

Module SheetEditor.

Definition nl : string := String Js.newline EmptyString.
Definition cm : string := String Js.comma EmptyString.

(** [file.content.split('\n').map(row => row.split(','))]. *)
Definition rows (content : string) : list (list string) :=
  map (Js.split Js.comma) (Js.split Js.newline content).

(** [ensureGrid]: push rows until there are 50, then push cells onto every
    row until it has 20.  The array it pads is [rows] itself. *)
Definition ensureGrid (rs : list (list string)) : list (list string) :=
  let rs50 := rs ++ repeat (repeat EmptyString 10) (50 - List.length rs) in
  map (fun r => r ++ repeat EmptyString (20 - List.length r)) rs50.

Definition grid (content : string) : list (list string) :=
  ensureGrid (rows content).

(** Serialisation used by [handleCellChange]. *)
Definition serialize (g : list (list string)) : string :=
  Js.join nl (map (Js.join cm) g).

(** [handleCellChange(r, c, val)]: the text handed to [onChange].
    [newGrid[r][c] = val] throws when row [r] does not exist ([None]). *)
Definition handleCellChange (content : string) (r c : nat) (val : string)
  : option string :=
  let newGrid := grid content in
  match nth_error newGrid r with
  | None => None
  | Some row => Some (serialize (Js.list_set r (Js.array_set c val row) newGrid))
  end.

(** The grid with one cell overwritten, as [handleCellChange] builds it
    for a row that exists. *)
Definition edited_grid (content : string) (r c : nat) (val : string)
  : list (list string) :=
  Js.list_set r (Js.array_set c val (nth r (grid content) [])) (grid content).


End SheetEditor.

(** ** Runtime values

    [actionData] is whatever [JSON.parse] returns, and its fields flow
    unchecked into [createNewFile] and [updateFileContent]; a file's [name],
    [type] and [content] can therefore hold any JSON value or [undefined]
    at run time, whatever the [VirtualFile] interface declares.  Numbers are
    integers: the program performs no arithmetic on them. *)

Inductive json : Type :=
| JNull
| JBool (b : bool)
| JNum (n : Z)
| JStr (s : string)
| JArr (items : list json)
| JObj (fields : list (string * json)).

(** A JavaScript value: [None] is [undefined]. *)
Definition jsval : Type := option json.
Definition undefined : jsval := None.
Definition str (s : string) : jsval := Some (JStr s).

(** Truthiness, as [||] and [if] test it. *)
Definition truthy (v : jsval) : bool :=
  match v with
  | None | Some JNull => false
  | Some (JBool b) => b
  | Some (JNum n) => negb (Z.eqb n 0)
  | Some (JStr s) => negb (String.eqb s EmptyString)
  | Some (JArr _) | Some (JObj _) => true
  end.

(** [a === b].  Arrays and objects compare by identity; every comparison in
    App.tsx has a literal or a freshly parsed value on one side, so two of
    them are never the same object. *)
Definition strict_eq (a b : jsval) : bool :=
  match a, b with
  | None, None => true
  | Some JNull, Some JNull => true
  | Some (JBool x), Some (JBool y) => Bool.eqb x y
  | Some (JNum x), Some (JNum y) => Z.eqb x y
  | Some (JStr x), Some (JStr y) => String.eqb x y
  | _, _ => false
  end.

Definition is_string (v : jsval) : bool :=
  match v with Some (JStr _) => true | _ => false end.

(** Converting a value to a string, as a template literal and a computed
    property key do, throws a TypeError for an object with an own
    [toString] key (the key holds a JSON value, which cannot be called, and
    the inherited [valueOf] returns the object itself) and for an array
    whose [join] meets such an element.  Every other JSON value, and
    [undefined], converts. *)
Fixpoint toString_throws (j : json) : bool :=
  match j with
  | JArr items => existsb toString_throws items
  | JObj fields => existsb (fun kv => String.eqb (fst kv) "toString") fields
  | JNull | JBool _ | JNum _ | JStr _ => false
  end.

Definition conversion_throws (v : jsval) : bool :=
  match v with
  | None => false
  | Some j => toString_throws j
  end.

(** [o.k] on a parsed value: the last binding of [k] in an object,
    [undefined] when there is none or when [o] is not an object, and a
    TypeError ([None]) on [null]. *)
Definition get_field (k : string) (fields : list (string * json)) : jsval :=
  option_map snd (find (fun kv => String.eqb (fst kv) k) (rev fields)).

Definition read (o : json) (k : string) : option jsval :=
  match o with
  | JNull => None
  | JObj fields => Some (get_field k fields)
  | _ => Some undefined
  end.

(** [[...v]] on a parsed value: arrays and strings are iterable, anything
    else throws ([None]). *)
Fixpoint chars (s : string) : list json :=
  match s with
  | EmptyString => []
  | String c s' => JStr (String c EmptyString) :: chars s'
  end.

Definition spread (v : json) : option (list json) :=
  match v with
  | JArr items => Some items
  | JStr s => Some (chars s)
  | _ => None
  end.

(** [s.trim()]: white space and line terminators below code unit 256. *)
Definition is_space (c : ascii) : bool :=
  let n := nat_of_ascii c in
  (Nat.leb 9 n && Nat.leb n 13) || Nat.eqb n 32 || Nat.eqb n 160.

Fixpoint trimStart (s : string) : string :=
  match s with
  | EmptyString => EmptyString
  | String c s' => if is_space c then trimStart s' else s
  end.

Fixpoint trimEnd (s : string) : string :=
  match s with
  | EmptyString => EmptyString
  | String c s' =>
      match trimEnd s' with
      | EmptyString => if is_space c then EmptyString else String c EmptyString
      | t => String c t
      end
  end.

Definition trim (s : string) : string := trimEnd (trimStart s).

(** [s.replace(':', '')]: the first colon only. *)
Fixpoint remove_first_colon (s : string) : string :=
  match s with
  | EmptyString => EmptyString
  | String c s' => if Ascii.eqb c ":"%char then s' else String c (remove_first_colon s')
  end.

(** ** The host: built-ins whose results the model takes as given

    [JSON.parse] coerces its argument to a string and throws ([None]) on
    malformed text.  The two regular expressions of [handleSendMessage] are
    run by the host's engine.  [missing_ext] renders [`${extensions[type]}`]
    for a [type] that is not a key of the table, and [null_read_error] is
    the message of the TypeError raised by reading a property of [null]. *)

Class Host : Type := {
  JSON_parse : jsval -> option json;
  JSON_stringify : json -> string;
  (** [fullText.match(/^\*\*(.*?)\*\*/)]: capture group 1. *)
  match_specialist : string -> option string;
  (** [fullText.match(jsonBlockRegex)]: capture group 1, paired with
      [fullText.replace(jsonBlockRegex, '')]. *)
  match_jsonBlock : string -> option (string * string);
  missing_ext : jsval -> string;
  null_read_error : string
}.

(** ** Types (App.tsx, 39-63) *)

Module VirtualFile.
Record t : Type := mk {
  id : string;
  name : jsval;
  type : jsval;
  content : jsval
}.

(** [{ ...f, content }]. *)
Definition with_content (f : t) (c : jsval) : t :=
  mk (id f) (name f) (type f) c.

(** What the interface declares: [name] and [content] strings, [type] one
    of the seven [FileType] literals. *)
Definition FileType : list string :=
  ["chat"; "code"; "doc"; "whiteboard"; "sheet"; "slide"; "note"].

Definition well_typed (f : t) : bool :=
  is_string (name f) && is_string (content f)
  && existsb (fun k => strict_eq (type f) (str k)) FileType.
End VirtualFile.

Module Message.
Definition user (text : string) (timestamp : Z) : json :=
  JObj [("role", JStr "user"); ("text", JStr text); ("timestamp", JNum timestamp)].

Definition model (text specialist : string) (timestamp : Z) : json :=
  JObj [("role", JStr "model"); ("text", JStr text);
        ("specialist", JStr specialist); ("timestamp", JNum timestamp)].

(** The model-authored message of the [catch] branch. *)
Definition error (message : string) (timestamp : Z) : json :=
  JObj [("role", JStr "model"); ("text", JStr ("**System Error:** " ++ message));
        ("timestamp", JNum timestamp)].
End Message.

(** The fields of [actionData] that the dispatcher reads. *)
Module Action.
Record t : Type := mk {
  action : jsval;
  file_id : jsval;
  file_type : jsval;
  file_name : jsval;
  content : jsval
}.

Definition of_json (o : json) : option t :=
  match read o "action", read o "file_id", read o "file_type",
        read o "file_name", read o "content" with
  | Some a, Some i, Some t, Some n, Some c => Some (mk a i t n c)
  | _, _, _, _, _ => None
  end.
End Action.

(** ** The state of [App] (App.tsx, 345-357) *)

Record State : Type := mkState {
  apiKey : string;
  files : list VirtualFile.t;
  openTabIds : list string;
  activeTabId : string;
  isGoogleMenuOpen : bool;
  isProcessing : bool;
  currentSpecialist : string;
  chatInput : string
}.

Definition setFiles (u : list VirtualFile.t -> list VirtualFile.t) (st : State) : State :=
  mkState (apiKey st) (u (files st)) (openTabIds st) (activeTabId st)
          (isGoogleMenuOpen st) (isProcessing st) (currentSpecialist st) (chatInput st).

Definition setOpenTabIds (u : list string -> list string) (st : State) : State :=
  mkState (apiKey st) (files st) (u (openTabIds st)) (activeTabId st)
          (isGoogleMenuOpen st) (isProcessing st) (currentSpecialist st) (chatInput st).

Definition setActiveTabId (v : string) (st : State) : State :=
  mkState (apiKey st) (files st) (openTabIds st) v
          (isGoogleMenuOpen st) (isProcessing st) (currentSpecialist st) (chatInput st).

Definition setIsGoogleMenuOpen (v : bool) (st : State) : State :=
  mkState (apiKey st) (files st) (openTabIds st) (activeTabId st)
          v (isProcessing st) (currentSpecialist st) (chatInput st).

Definition setIsProcessing (v : bool) (st : State) : State :=
  mkState (apiKey st) (files st) (openTabIds st) (activeTabId st)
          (isGoogleMenuOpen st) v (currentSpecialist st) (chatInput st).

Definition setCurrentSpecialist (v : string) (st : State) : State :=
  mkState (apiKey st) (files st) (openTabIds st) (activeTabId st)
          (isGoogleMenuOpen st) (isProcessing st) v (chatInput st).

Definition setChatInput (v : string) (st : State) : State :=
  mkState (apiKey st) (files st) (openTabIds st) (activeTabId st)
          (isGoogleMenuOpen st) (isProcessing st) (currentSpecialist st) v.

(** The state [App] starts in, for a given [process.env.API_KEY || '']. *)
Definition initial (key : string) : State :=
  mkState key [VirtualFile.mk "1" (str "MWI_Chat") (str "chat") (str "[]")]
          ["1"] "1" false false "The Liaison" EmptyString.

(** [files.find(f => f.id === id)]. *)
Definition findFile (fid : string) (fs : list VirtualFile.t) : option VirtualFile.t :=
  find (fun f => String.eqb (VirtualFile.id f) fid) fs.

(** Some file carries the id [fid]. *)
Definition hasFile (fid : string) (st : State) : Prop :=
  findFile fid (files st) <> None.

Definition activeFile (st : State) : option VirtualFile.t :=
  findFile (activeTabId st) (files st).

Definition ids (st : State) : list string := map VirtualFile.id (files st).

(** ** Tabs (App.tsx, 591-594 and 659-663) *)

(** Sidebar item [onClick]. *)
Definition openTab (fid : string) (st : State) : State :=
  let st' := if existsb (String.eqb fid) (openTabIds st) then st
             else setOpenTabIds (fun _ => openTabIds st ++ [fid]) st in
  setActiveTabId fid st'.

(** The open tabs that stay when [fid] is closed. *)
Definition remaining (fid : string) (open : list string) : list string :=
  filter (fun tid => negb (String.eqb tid fid)) open.

(** Tab [onClose]. *)
Definition closeTab (fid : string) (st : State) : State :=
  let newOpen := filter (fun tid => negb (String.eqb tid fid)) (openTabIds st) in
  let st' := setOpenTabIds (fun _ => newOpen) st in
  if String.eqb (activeTabId st) fid
  then setActiveTabId (last newOpen EmptyString) st'
  else st'.

(** Reading of the specification's fallback rule, for comparison with
    [closeTab]: the tab that stood immediately before the closed one. *)
Fixpoint preceding_tab (open : list string) (fid : string) : option string :=
  match open with
  | [] => None
  | x :: rest =>
      match rest with
      | y :: _ => if String.eqb y fid then Some x else preceding_tab rest fid
      | [] => None
      end
  end.

(** ** Workspace store (App.tsx, 368-397) *)

Definition extensions (k : string) : option string :=
  if String.eqb k "code" then Some "py"
  else if String.eqb k "doc" then Some "doc"
  else if String.eqb k "sheet" then Some "csv"
  else if String.eqb k "whiteboard" then Some "board"
  else if String.eqb k "chat" then Some "chat"
  else if String.eqb k "slide" then Some "slide"
  else if String.eqb k "note" then Some "txt"
  else None.

Section Store.

Context {host : Host}.

(** [`Untitled.${extensions[type]}`]. *)
Definition untitled (type : jsval) : string :=
  "Untitled." ++
  match type with
  | Some (JStr k) =>
      match extensions k with Some e => e | None => missing_ext type end
  | _ => missing_ext type
  end.

(** [Math.random().toString(36).substr(2, 9)], from the text [rnd36] of
    [Math.random().toString(36)]. *)
Definition newId_of (rnd36 : string) : string := substring 2 9 rnd36.

Definition initialContent (type content : jsval) : jsval :=
  let content := match content with None => str EmptyString | _ => content end in
  if truthy content then content
  else if strict_eq type (str "sheet")
       then str ("Header 1,Header 2,Header 3" ++ SheetEditor.nl ++ "Data 1,Data 2,Data 3")
  else if strict_eq type (str "chat") then str "[]"
  else if strict_eq type (str "code") then str "# New Script"
  else if strict_eq type (str "slide")
       then str ("Title Slide" ++ SlideEditor.nl ++ "Subtitle goes here")
  else str EmptyString.

(** Line 373, [name || `Untitled.${extensions[type]}`]: the table is
    indexed only when [name] is falsy, and converting [type] to a property
    key can then throw.  That happens before any state update. *)
Definition createNewFile_throws (type name : jsval) : bool :=
  negb (truthy name) && conversion_throws type.

(** [createNewFile] when line 373 does not throw: always for the menu,
    whose types are string literals; the dispatcher's call goes through
    [createNewFile_throws] first (see [dispatch]). *)
Definition createNewFile (rnd36 : string) (type name content : jsval) (st : State)
  : State * string :=
  let newId := newId_of rnd36 in
  let fileName := if truthy name then name else str (untitled type) in
  let newFile := VirtualFile.mk newId fileName type (initialContent type content) in
  let st := setFiles (fun prev => prev ++ [newFile]) st in
  let st := setOpenTabIds (fun prev => prev ++ [newId]) st in
  let st := setActiveTabId newId st in
  let st := setIsGoogleMenuOpen false st in
  (st, newId).

Definition updateFileContent (fid : string) (content : jsval) (st : State) : State :=
  setFiles (map (fun f => if String.eqb (VirtualFile.id f) fid
                          then VirtualFile.with_content f content else f)) st.

End Store.

(** ** Assistant client and action dispatcher (App.tsx, 414-475) *)

(** What a call of [handleSendMessage] that passed its guards and issued
    its request keeps in its closure while the request is outstanding. *)
Record Pending : Type := mkPending {
  chatId : string;                      (* [activeChatFile.id] *)
  newHistory : list json;               (* [newHistory] *)
  snapshot : list VirtualFile.t         (* [files] of the render that sent *)
}.

(** How the synchronous part of [handleSendMessage] ends. *)
Inductive sendResult : Type :=
| Ignored                        (* a guard returned: nothing was touched *)
| Thrown (st : State)            (* an exception left the handler at state [st] *)
| Failed (st : State)            (* building the request threw inside [try] *)
| InFlight (st : State) (p : Pending).   (* the request is outstanding *)

(** How the awaited request ends: [response.text || ""], or the rendering
    of [error.message]. *)
Inductive outcome : Type :=
| Resolved (fullText : string)
| Rejected (message : string).

Section Assistant.

Context {host : Host}.

(** The file that [update_file] resolves to. *)
Definition matches (a : Action.t) (f : VirtualFile.t) : bool :=
  strict_eq (VirtualFile.name f) (Action.file_name a)
  || strict_eq (str (VirtualFile.id f)) (Action.file_id a).

Definition resolveTarget (a : Action.t) (fs : list VirtualFile.t)
  : option VirtualFile.t :=
  find (matches a) fs.

(** Reading of the specification's resolution rule, for comparison with
    [resolveTarget]: a file matching [file_name] if there is one, else a
    file matching [file_id]. *)
Definition resolve_name_first (a : Action.t) (fs : list VirtualFile.t)
  : option VirtualFile.t :=
  match find (fun f => strict_eq (VirtualFile.name f) (Action.file_name a)) fs with
  | Some t => Some t
  | None => find (fun f => strict_eq (str (VirtualFile.id f)) (Action.file_id a)) fs
  end.

(** Lines 457-462: the dispatch on [actionData.action].  [fs] is the [files]
    of the closure, [st] the state the updates are applied to. *)
Definition dispatch (a : Action.t) (fs : list VirtualFile.t) (rnd36 : string)
  (st : State) : State :=
  if strict_eq (Action.action a) (str "create_file") then
    if createNewFile_throws (Action.file_type a) (Action.file_name a)
    then st      (* TypeError inside [createNewFile], swallowed by [catch] at 463 *)
    else fst (createNewFile rnd36 (Action.file_type a) (Action.file_name a)
                (Action.content a) st)
  else if strict_eq (Action.action a) (str "update_file") then
    match resolveTarget a fs with
    | Some target => updateFileContent (VirtualFile.id target) (Action.content a) st
    | None => st
    end
  else st.

(** Lines 449-464: [displayResponse] and the state after the action block. *)
Definition extractAction (fullText : string) (fs : list VirtualFile.t)
  (rnd36 : string) (st : State) : string * State :=
  match match_jsonBlock fullText with
  | None => (fullText, st)
  | Some (block, stripped) =>
      match JSON_parse (str block) with
      | None => (fullText, st)
      | Some actionData =>
          (trim stripped,
           match Action.of_json actionData with
           | Some a => dispatch a fs rnd36 st
           | None => st
           end)
      end
  end.

Definition specialistOf (fullText : string) : string :=
  match match_specialist fullText with
  | Some g => remove_first_colon g
  | None => "The Liaison"
  end.


(** The message appended when the request settles. *)
Definition replyMessage (o : outcome) (display : string) (now : Z) : json :=
  match o with
  | Resolved fullText => Message.model display (specialistOf fullText) now
  | Rejected message => Message.error message now
  end.


(** Lines 443-474: the continuation after [await], run on the state [st]
    current when the request settles. *)
Definition settle (p : Pending) (o : outcome) (now : Z) (rnd36 : string)
  (st : State) : State :=
  match o with
  | Resolved fullText =>
      let st := setCurrentSpecialist (specialistOf fullText) st in
      let '(display, st) := extractAction fullText (snapshot p) rnd36 st in
      let st := updateFileContent (chatId p)
                  (str (JSON_stringify (JArr (newHistory p ++ [replyMessage o display now])))) st in
      setIsProcessing false st
  | Rejected message =>
      let st := updateFileContent (chatId p)
                  (str (JSON_stringify (JArr (newHistory p ++ [Message.error message now])))) st in
      setIsProcessing false st
  end.

(** Lines 427-430: the snapshot text of one file is built without
    exception when [`${f.name}`] and [`${f.type}`] convert and
    [f.content.substring] exists, that is when the content is a string. *)
Definition renders (f : VirtualFile.t) : bool :=
  negb (conversion_throws (VirtualFile.name f))
  && negb (conversion_throws (VirtualFile.type f))
  && is_string (VirtualFile.content f).

(** [m.role] and [m.text] throw on a [null] element. *)
Definition readable (m : json) : bool :=
  match m with JNull => false | _ => true end.

(** Lines 414-441: [handleSendMessage] up to the [await].  [Date.now()] is
    read as [now] (also by the [catch] branch, when it runs in the same
    turn). *)
Definition handleSendMessage (now : Z) (st : State) : sendResult :=
  if String.eqb (trim (chatInput st)) EmptyString || String.eqb (apiKey st) EmptyString
  then Ignored
  else
    match activeFile st with
    | None => Ignored
    | Some activeChatFile =>
        if negb (strict_eq (VirtualFile.type activeChatFile) (str "chat")) then Ignored
        else
          match JSON_parse (VirtualFile.content activeChatFile) with
          | None => Thrown st
          | Some parsed =>
              match spread parsed with
              | None => Thrown st
              | Some history =>
                  let userMsg := Message.user (chatInput st) now in
                  let newHistory := history ++ [userMsg] in
                  let fid := VirtualFile.id activeChatFile in
                  let st1 := updateFileContent fid
                               (str (JSON_stringify (JArr newHistory))) st in
                  let st1 := setChatInput EmptyString st1 in
                  let st1 := setIsProcessing true st1 in
                  (* workspaceContext, built outside [try] from every file *)
                  if negb (forallb renders (files st))
                  then Thrown st1
                  else if negb (forallb readable newHistory) then
                    Failed (setIsProcessing false
                              (updateFileContent fid
                                 (str (JSON_stringify
                                         (JArr (newHistory ++ [Message.error null_read_error now]))))
                                 st1))
                  else InFlight st1 (mkPending fid newHistory (files st))
              end
          end
    end.


(** One send from start to finish with no other event in between. *)
Definition sendAndSettle (now : Z) (o : outcome) (now' : Z) (rnd36 : string)
  (st : State) : option State :=
  match handleSendMessage now st with
  | InFlight st1 p => Some (settle p o now' rnd36 st1)
  | Failed st2 => Some st2
  | Ignored | Thrown _ => None
  end.

(** The content of the file found under [fid] is the serialisation of the
    message list [l]. *)
Definition holds_history (st : State) (fid : string) (l : list json) : Prop :=
  exists f, findFile fid (files st) = Some f
            /\ VirtualFile.content f = str (JSON_stringify (JArr l)).

(** ** The page as a transition system

    Between two events React has re-rendered, so each handler reads the
    current state; the continuation of a send reads its own closure. *)

Record System : Type := mkSystem {
  ui : State;
  outstanding : list Pending
}.

Inductive event : Type :=
| TypeChat (text : string)              (* chat input [onChange] *)
| PressEnter (now : Z)                  (* chat input [onKeyDown], Enter *)
| ClickRun (now : Z)                    (* the RUN button *)
| Settle (i : nat) (o : outcome) (now : Z) (rnd36 : string)
| NewFile (type : string) (rnd36 : string)   (* a button of the workspace menu *)
| EditFile (value : string)             (* an editor's [onChange] *)
| OpenTab (fid : string)
| CloseTab (fid : string).

Definition send (now : Z) (sys : System) : System :=
  match handleSendMessage now (ui sys) with
  | Ignored => sys
  | Thrown st | Failed st => mkSystem st (outstanding sys)
  | InFlight st p => mkSystem st (outstanding sys ++ [p])
  end.

Fixpoint remove_nth {A : Type} (i : nat) (l : list A) : list A :=
  match l, i with
  | [], _ => []
  | _ :: t, O => t
  | h :: t, S j => h :: remove_nth j t
  end.

(** The file types the editor surface has an [onChange] editor for. *)
Definition hasEditor (f : VirtualFile.t) : bool :=
  existsb (fun k => strict_eq (VirtualFile.type f) (str k))
          ["code"; "doc"; "note"; "sheet"; "whiteboard"; "slide"].

Definition step (sys : System) (e : event) : System :=
  match e with
  | TypeChat text => mkSystem (setChatInput text (ui sys)) (outstanding sys)
  | PressEnter now => send now sys
  | ClickRun now =>
      (* [disabled={isProcessing}]: a disabled button fires no click *)
      if isProcessing (ui sys) then sys else send now sys
  | Settle i o now rnd36 =>
      match nth_error (outstanding sys) i with
      | Some p => mkSystem (settle p o now rnd36 (ui sys)) (remove_nth i (outstanding sys))
      | None => sys
      end
  | NewFile type rnd36 =>
      mkSystem (fst (createNewFile rnd36 (str type) undefined undefined (ui sys)))
               (outstanding sys)
  | EditFile value =>
      match activeFile (ui sys) with
      | Some f =>
          if hasEditor f
          then mkSystem (updateFileContent (VirtualFile.id f) (str value) (ui sys))
                        (outstanding sys)
          else sys
      | None => sys
      end
  | OpenTab fid =>
      (* the sidebar lists [files] *)
      match findFile fid (files (ui sys)) with
      | Some _ => mkSystem (openTab fid (ui sys)) (outstanding sys)
      | None => sys
      end
  | CloseTab fid =>
      (* a tab is drawn for each open id that names a file *)
      match findFile fid (files (ui sys)) with
      | Some _ =>
          if existsb (String.eqb fid) (openTabIds (ui sys))
          then mkSystem (closeTab fid (ui sys)) (outstanding sys)
          else sys
      | None => sys
      end
  end.

Definition run (sys : System) (trace : list event) : System :=
  fold_left step trace sys.

Definition boot (key : string) : System := mkSystem (initial key) [].

(** At most one request is outstanding, and the flag is set while it is. *)
Definition one_in_flight (sys : System) : Prop :=
  List.length (outstanding sys) <= 1
  /\ (outstanding sys <> [] -> isProcessing (ui sys) = true).

(** Events other than the Enter key in the chat input. *)
Definition not_enter (e : event) : bool :=
  match e with PressEnter _ => false | _ => true end.

End Assistant.

(** ** A reference host

    An executable [Host], used to run the model on concrete pages: compact
    JSON text with integer numbers, and the two regular expressions written
    out as scanners. *)

Module Reference.

Local Open Scope string_scope.

Definition dquote : ascii := "034"%char.
Definition backslash : ascii := "092"%char.
Definition backtick : ascii := "096"%char.

Definition hex_digit (n : nat) : ascii :=
  nth n (list_ascii_of_string "0123456789abcdef") "0"%char.

Definition hex_value (c : ascii) : option nat :=
  let n := nat_of_ascii c in
  if Nat.leb 48 n && Nat.leb n 57 then Some (n - 48)
  else if Nat.leb 97 n && Nat.leb n 102 then Some (n - 87)
  else if Nat.leb 65 n && Nat.leb n 70 then Some (n - 55)
  else None.

(** *** [JSON.stringify] *)

Definition escape_char (c : ascii) : string :=
  let n := nat_of_ascii c in
  if Ascii.eqb c dquote then String backslash (String dquote EmptyString)
  else if Ascii.eqb c backslash then String backslash (String backslash EmptyString)
  else if Nat.eqb n 8 then String backslash "b"
  else if Nat.eqb n 9 then String backslash "t"
  else if Nat.eqb n 10 then String backslash "n"
  else if Nat.eqb n 12 then String backslash "f"
  else if Nat.eqb n 13 then String backslash "r"
  else if Nat.ltb n 32
       then String backslash
              ("u00" ++ String (hex_digit (n / 16)) (String (hex_digit (n mod 16)) EmptyString))
  else String c EmptyString.

Fixpoint escape (s : string) : string :=
  match s with
  | EmptyString => EmptyString
  | String c s' => escape_char c ++ escape s'
  end.

Definition quote (s : string) : string :=
  String dquote (escape s ++ String dquote EmptyString).

Definition decimal (n : Z) : string := NilZero.string_of_int (Z.to_int n).

Fixpoint stringify (j : json) : string :=
  match j with
  | JNull => "null"
  | JBool true => "true"
  | JBool false => "false"
  | JNum n => decimal n
  | JStr s => quote s
  | JArr items => "[" ++ Js.join "," (map stringify items) ++ "]"
  | JObj fields =>
      "{" ++ Js.join "," (map (fun kv => quote (fst kv) ++ ":" ++ stringify (snd kv)) fields)
          ++ "}"
  end.

(** *** [JSON.parse] *)

Definition json_space (c : ascii) : bool :=
  let n := nat_of_ascii c in
  Nat.eqb n 32 || Nat.eqb n 9 || Nat.eqb n 10 || Nat.eqb n 13.

Fixpoint skip_ws (s : string) : string :=
  match s with
  | EmptyString => EmptyString
  | String c s' => if json_space c then skip_ws s' else s
  end.

Definition simple_escape (e : ascii) : option ascii :=
  if Ascii.eqb e dquote then Some dquote
  else if Ascii.eqb e backslash then Some backslash
  else if Ascii.eqb e "/"%char then Some "/"%char
  else if Ascii.eqb e "b"%char then Some (ascii_of_nat 8)
  else if Ascii.eqb e "t"%char then Some (ascii_of_nat 9)
  else if Ascii.eqb e "n"%char then Some (ascii_of_nat 10)
  else if Ascii.eqb e "f"%char then Some (ascii_of_nat 12)
  else if Ascii.eqb e "r"%char then Some (ascii_of_nat 13)
  else None.

Definition cons_char (c : ascii) (r : option (string * string)) : option (string * string) :=
  match r with
  | Some (s, rest) => Some (String c s, rest)
  | None => None
  end.

(** The characters of a string literal after its opening quote, and what
    follows the closing quote. *)
Fixpoint parse_chars (s : string) : option (string * string) :=
  match s with
  | EmptyString => None
  | String c s' =>
      if Ascii.eqb c dquote then Some (EmptyString, s')
      else if Ascii.eqb c backslash then
        match s' with
        | EmptyString => None
        | String e s'' =>
            match simple_escape e with
            | Some d => cons_char d (parse_chars s'')
            | None =>
                if Ascii.eqb e "u"%char then
                  match s'' with
                  | String h1 (String h2 (String h3 (String h4 rest))) =>
                      match hex_value h1, hex_value h2, hex_value h3, hex_value h4 with
                      | Some 0, Some 0, Some a, Some b =>
                          cons_char (ascii_of_nat (16 * a + b)) (parse_chars rest)
                      | _, _, _, _ => None
                      end
                  | _ => None
                  end
                else None
            end
        end
      else if Nat.ltb (nat_of_ascii c) 32 then None
      else cons_char c (parse_chars s')
  end.

Definition is_digit (c : ascii) : bool :=
  let n := nat_of_ascii c in Nat.leb 48 n && Nat.leb n 57.

Fixpoint span_digits (s : string) : string * string :=
  match s with
  | EmptyString => (EmptyString, EmptyString)
  | String c s' =>
      if is_digit c then let '(d, rest) := span_digits s' in (String c d, rest)
      else (EmptyString, s)
  end.

(** An integer literal: an optional minus sign, then [0] or digits that do
    not start with [0]. *)
Definition parse_number (s : string) : option (json * string) :=
  let '(sign, body) := match s with
                       | String "-"%char s' => ("-", s')
                       | _ => (EmptyString, s)
                       end in
  let '(digits, rest) := span_digits body in
  match digits with
  | EmptyString => None
  | String "0"%char (String _ _) => None
  | _ =>
      match rest with
      | String "."%char _ | String "e"%char _ | String "E"%char _ => None
      | _ => option_map (fun i => (JNum (Z.of_int i), rest))
                        (NilZero.int_of_string (sign ++ digits))
      end
  end.

Definition strip_prefix (p s : string) : option string :=
  if String.prefix p s then Some (substring (String.length p) (String.length s - String.length p) s)
  else None.

Fixpoint parse_value (fuel : nat) (s : string) : option (json * string) :=
  match fuel with
  | O => None
  | S fuel =>
      match skip_ws s with
      | EmptyString => None
      | String c rest as s0 =>
          if Ascii.eqb c "["%char then
            match skip_ws rest with
            | String "]"%char rest' => Some (JArr [], rest')
            | _ => option_map (fun r => (JArr (fst r), snd r)) (parse_items fuel rest)
            end
          else if Ascii.eqb c "{"%char then
            match skip_ws rest with
            | String "}"%char rest' => Some (JObj [], rest')
            | _ => option_map (fun r => (JObj (fst r), snd r)) (parse_members fuel rest)
            end
          else if Ascii.eqb c dquote then
            option_map (fun r => (JStr (fst r), snd r)) (parse_chars rest)
          else
            match strip_prefix "null" s0, strip_prefix "true" s0, strip_prefix "false" s0 with
            | Some r, _, _ => Some (JNull, r)
            | _, Some r, _ => Some (JBool true, r)
            | _, _, Some r => Some (JBool false, r)
            | None, None, None => parse_number s0
            end
      end
  end

with parse_items (fuel : nat) (s : string) : option (list json * string) :=
  match fuel with
  | O => None
  | S fuel =>
      match parse_value fuel s with
      | None => None
      | Some (v, rest) =>
          match skip_ws rest with
          | String "]"%char rest' => Some ([v], rest')
          | String ","%char rest' =>
              option_map (fun r => (v :: fst r, snd r)) (parse_items fuel rest')
          | _ => None
          end
      end
  end

with parse_members (fuel : nat) (s : string) : option (list (string * json) * string) :=
  match fuel with
  | O => None
  | S fuel =>
      match skip_ws s with
      | String c rest =>
          if Ascii.eqb c dquote then
            match parse_chars rest with
            | None => None
            | Some (k, rest) =>
                match skip_ws rest with
                | String ":"%char rest =>
                    match parse_value fuel rest with
                    | None => None
                    | Some (v, rest) =>
                        match skip_ws rest with
                        | String "}"%char rest' => Some ([(k, v)], rest')
                        | String ","%char rest' =>
                            option_map (fun r => ((k, v) :: fst r, snd r))
                                       (parse_members fuel rest')
                        | _ => None
                        end
                    end
                | _ => None
                end
            end
          else None
      | EmptyString => None
      end
  end.

Definition parse_text (s : string) : option json :=
  match parse_value (2 * String.length s + 2) s with
  | Some (v, rest) =>
      match skip_ws rest with
      | EmptyString => Some v
      | _ => None
      end
  | None => None
  end.

(** [String(v)], the coercion [JSON.parse] applies to its argument. *)
Fixpoint to_string (j : json) : string :=
  match j with
  | JNull => "null"
  | JBool true => "true"
  | JBool false => "false"
  | JNum n => decimal n
  | JStr s => s
  | JArr items =>
      Js.join "," (map (fun x => match x with JNull => EmptyString | _ => to_string x end) items)
  | JObj _ => "[object Object]"
  end.

Definition parse (v : jsval) : option json :=
  match v with
  | None => None
  | Some j => parse_text (to_string j)
  end.

(** *** The regular expressions *)

Definition line_terminator (c : ascii) : bool :=
  let n := nat_of_ascii c in Nat.eqb n 10 || Nat.eqb n 13.

(** [(.*?)\*\*]: the shortest run without line terminator that two stars
    follow. *)
Fixpoint until_stars (s : string) : option string :=
  match s with
  | EmptyString => None
  | String c s' =>
      match c, s' with
      | "*"%char, String "*"%char _ => Some EmptyString
      | _, _ => if line_terminator c then None
                else option_map (String c) (until_stars s')
      end
  end.

(** [/^\*\*(.*?)\*\*/]. *)
Definition specialist (fullText : string) : option string :=
  match fullText with
  | String "*"%char (String "*"%char rest) => until_stars rest
  | _ => None
  end.

Definition fence : string := String backtick (String backtick (String backtick EmptyString)).

Fixpoint leading_spaces (l : list ascii) : nat :=
  match l with
  | c :: l' => if is_space c then S (leading_spaces l') else 0
  | [] => 0
  end.

(** Index of the brace that [\}\s*```$] can match, if the text ends so. *)
Definition closing_brace (s : string) : option nat :=
  match rev (list_ascii_of_string s) with
  | a :: b :: c :: r =>
      if Ascii.eqb a backtick && Ascii.eqb b backtick && Ascii.eqb c backtick then
        let ws := leading_spaces r in
        match skipn ws r with
        | "}"%char :: _ => Some (String.length s - 3 - ws - 1)
        | _ => None
        end
      else None
  | _ => None
  end.

(** Leftmost index where [```json\s*\{] matches, with the index of its
    brace. *)
Fixpoint opening (s : string) (at_ : nat) : option (nat * nat) :=
  match s with
  | EmptyString => None
  | String _ s' =>
      match strip_prefix (fence ++ "json") s with
      | Some after =>
          let ws := leading_spaces (list_ascii_of_string after) in
          match skipn ws (list_ascii_of_string after) with
          | "{"%char :: _ => Some (at_, at_ + 7 + ws)
          | _ => opening s' (S at_)
          end
      | None => opening s' (S at_)
      end
  end.

(** [/```json\s*(\{[\s\S]*?\})\s*```$/]: the captured object text and the
    text with the match removed. *)
Definition jsonBlock (fullText : string) : option (string * string) :=
  match closing_brace fullText, opening fullText 0 with
  | Some close, Some (start, open) =>
      if Nat.ltb open close
      then Some (substring open (close - open + 1) fullText, substring 0 start fullText)
      else None
  | _, _ => None
  end.

#[export] Instance host : Host := {
  JSON_parse := parse;
  JSON_stringify := stringify;
  match_specialist := specialist;
  match_jsonBlock := jsonBlock;
  missing_ext := fun _ => "undefined";
  null_read_error := "Cannot read properties of null (reading 'role')"
}.

End Reference.

(** ** Sample pages *)

#[local] Existing Instance Reference.host.

Definition three_tabs : State :=
  mkState "k"
    [VirtualFile.mk "a" (str "A.doc") (str "doc") (str EmptyString);
     VirtualFile.mk "b" (str "B.doc") (str "doc") (str EmptyString);
     VirtualFile.mk "c" (str "C.doc") (str "doc") (str EmptyString)]
    ["a"; "b"; "c"] "b" false false "The Liaison" EmptyString.

Definition doc_a : VirtualFile.t :=
  VirtualFile.mk "1" (str "a.doc") (str "doc") (str "alpha").
Definition doc_b : VirtualFile.t :=
  VirtualFile.mk "2" (str "b.doc") (str "doc") (str "beta").

(** A directive that names [doc_b] by [file_name] and [doc_a] by [file_id]. *)
Definition update_b_id_1 : Action.t :=
  Action.mk (str "update_file") (str "1") undefined (str "b.doc") (str "new").

Definition two_docs : State :=
  mkState "k" [doc_a; doc_b] ["1"; "2"] "1" false false "The Liaison" EmptyString.

(** A page with a key, the initial chat active and text typed. *)
Definition typed_hello (key : string) : State :=
  setChatInput "hello" (initial key).

(** Two sends, the second typed and entered while the first is outstanding. *)
Definition second_enter_trace : list event :=
  [TypeChat "first"; PressEnter 1; TypeChat "second"; PressEnter 2].

(** A reply that ends in an [update_file] block without [content]. *)
Definition reply_without_content : string :=
  "**The Documentarian:** Cleared." ++ SlideEditor.nl
  ++ Reference.fence ++ "json" ++ SlideEditor.nl
  ++ JSON_stringify (JObj [("action", JStr "update_file");
                           ("file_name", JStr "Untitled.doc")])
  ++ SlideEditor.nl ++ Reference.fence.

(** A reply that ends in a [create_file] block for a one-line slide. *)
Definition reply_one_line_slide : string :=
  "**The Orchestrator:** Deck started." ++ SlideEditor.nl
  ++ Reference.fence ++ "json" ++ SlideEditor.nl
  ++ JSON_stringify (JObj [("action", JStr "create_file");
                           ("file_type", JStr "slide");
                           ("file_name", JStr "Deck.slide");
                           ("content", JStr "Roadmap")])
  ++ SlideEditor.nl ++ Reference.fence.

(** Ask for a deck, receive that reply (the new slide becomes the active
    file), then retitle the slide in its editor. *)
Definition retitle_trace : list event :=
  [TypeChat "start a deck"; PressEnter 1;
   Settle 0 (Resolved reply_one_line_slide) 2 "0.s";
   EditFile (SlideEditor.onChange SlideEditor.Title "Roadmap" "Plan")].

(** Create a document, return to the chat, ask, and receive that reply. *)
Definition absent_content_trace : list event :=
  [NewFile "doc" "0.i"; OpenTab "1"; TypeChat "clear the document"; PressEnter 1;
   Settle 0 (Resolved reply_without_content) 2 "0.j"].

(** ** Reading a grid *)

Module Grid.

(** [g[i][j]], with the empty text where the grid has no such cell (what
    the cell input would show). *)
Definition cell (g : list (list string)) (i j : nat) : string :=
  nth j (nth i g []) EmptyString.

End Grid.

(** ** Invariants of the page *)

(** The state a call of [handleSendMessage] on [st] leaves behind. *)
Definition left_by (r : sendResult) (st : State) : State :=
  match r with
  | Ignored => st
  | Thrown st' | Failed st' | InFlight st' _ => st'
  end.

(** What identifies a file and never changes: id, name and type. *)
Definition file_key (f : VirtualFile.t) : string * jsval * jsval :=
  (VirtualFile.id f, VirtualFile.name f, VirtualFile.type f).

Definition file_keys (st : State) : list (string * jsval * jsval) :=
  map file_key (files st).

(** [st'] has the files of [st], in place and under the same id, name and
    type, followed by files added since. *)
Definition grows (st st' : State) : Prop :=
  exists added, file_keys st' = file_keys st ++ added.

(** Every open tab names a file, and the active tab is open or empty. *)
Definition tabs_ok (st : State) : Prop :=
  Forall (fun t => hasFile t st) (openTabIds st)
  /\ (activeTabId st = EmptyString \/ In (activeTabId st) (openTabIds st)).

(** Every file's content is a string, as the interface declares. *)
Definition all_strings (st : State) : bool :=
  forallb (fun f => is_string (VirtualFile.content f)) (files st).

Section Outcomes.

Context {host : Host}.

(** The reply ends in a block that the regular expression matches and
    [JSON.parse] accepts: the only replies the dispatcher acts on. *)
Definition acts (o : outcome) : bool :=
  match o with
  | Rejected _ => false
  | Resolved fullText =>
      match match_jsonBlock fullText with
      | None => false
      | Some (block, _) =>
          match JSON_parse (str block) with
          | None => false
          | Some _ => true
          end
      end
  end.

Definition settles_with_action (e : event) : bool :=
  match e with
  | Settle _ o _ _ => acts o
  | _ => false
  end.

(** The directive a settled request carries, if any. *)
Definition directive (o : outcome) : option Action.t :=
  match o with
  | Rejected _ => None
  | Resolved fullText =>
      match match_jsonBlock fullText with
      | None => None
      | Some (block, _) =>
          match JSON_parse (str block) with
          | None => None
          | Some actionData => Action.of_json actionData
          end
      end
  end.

(** The directive is a [create_file] whose call of [createNewFile] does
    not throw. *)
Definition creates (o : outcome) : bool :=
  match directive o with
  | Some a => strict_eq (Action.action a) (str "create_file")
              && negb (createNewFile_throws (Action.file_type a) (Action.file_name a))
  | None => false
  end.

(** The text of the response, before any block is stripped. *)
Definition raw_text (o : outcome) : string :=
  match o with
  | Resolved fullText => fullText
  | Rejected _ => EmptyString
  end.

End Outcomes.

(** ** Code runner and terminal log (App.tsx, 364-366 and 399-412)

    [terminalOutput] is a state cell of its own: only [addTerminalLog] and
    the clear button write it.  [runCode] has no guard, so any number of
    runs can be awaiting their answer; [running] counts them. *)

Module Terminal.

Inductive kind : Type := info | error | success | output.

Record entry : Type := mkEntry {
  id : string;            (* the text of [Math.random().toString()] *)
  type : kind;
  content : string;
  timestamp : Z
}.

Record t : Type := mk {
  log : list entry;       (* [terminalOutput] *)
  running : nat           (* calls of [runCode] suspended at [await] *)
}.

Definition empty : t := mk [] 0.

(** [addTerminalLog(content, type)]. *)
Definition addTerminalLog (rnd : string) (now : Z) (content : string) (type : kind)
  (log : list entry) : list entry :=
  log ++ [mkEntry rnd type content now].

(** How the awaited call ends: [response.text] (a string or [undefined]),
    or the rendering of [error.message]. *)
Inductive answer : Type :=
| Answered (text : option string)
| Failed (message : string).

(** [response.text || "No output"]. *)
Definition shown (text : option string) : string :=
  match text with
  | Some s => if String.eqb s EmptyString then "No output" else s
  | None => "No output"
  end.

(** [runCode(code, fileName)] up to the [await]; [fileName] is the text the
    template literal renders. *)
Definition runCode_start (fileName rnd : string) (now : Z) (tm : t) : t :=
  mk (addTerminalLog rnd now ("> Executing " ++ fileName ++ "...") info (log tm))
     (S (running tm)).

(** [runCode] after the [await], for one of the suspended calls. *)
Definition runCode_settle (a : answer) (rnd : string) (now : Z) (tm : t) : t :=
  match running tm with
  | O => tm
  | S n =>
      mk (match a with
          | Answered text => addTerminalLog rnd now (shown text) output (log tm)
          | Failed message =>
              addTerminalLog rnd now ("Execution failed: " ++ message) error (log tm)
          end) n
  end.

(** The clear button: [setTerminalOutput([])]. *)
Definition clear (tm : t) : t := mk [] (running tm).

Inductive event : Type :=
| Run (fileName rnd : string) (now : Z)
| Answer (a : answer) (rnd : string) (now : Z)
| Clear.

Definition step (tm : t) (e : event) : t :=
  match e with
  | Run fileName rnd now => runCode_start fileName rnd now tm
  | Answer a rnd now => runCode_settle a rnd now tm
  | Clear => clear tm
  end.

Definition run (tm : t) (trace : list event) : t := fold_left step trace tm.

Definition is_run (e : event) : bool :=
  match e with Run _ _ _ => true | _ => false end.

Definition is_clear (e : event) : bool :=
  match e with Clear => true | _ => false end.

(** Number of [Run] events in a trace. *)
Definition runs (trace : list event) : nat := List.length (filter is_run trace).

End Terminal.

(* ================================================================== *)
(** * Part II: properties                                              *)
(* ================================================================== *)

(** ** String primitives *)

Section JsStrings.

Import Js.

Lemma split_nonempty sep s : split sep s <> [].
Proof.
  destruct s as [|c s]; simpl; [discriminate|].
  destruct (Ascii.eqb c sep); [discriminate|].
  destruct (split sep s); discriminate.
Qed.

Lemma split_length sep s : List.length (split sep s) = S (count_char sep s).
Proof.
  induction s as [|c s IH]; simpl; [reflexivity|].
  destruct (Ascii.eqb c sep); simpl.
  - now rewrite IH.
  - destruct (split sep s) eqn:E; simpl in *; [discriminate | exact IH].
Qed.

Lemma count_char_app c s t :
  count_char c (s ++ t) = count_char c s + count_char c t.
Proof. induction s as [|d s IH]; simpl; [reflexivity | rewrite IH; lia]. Qed.

Lemma join_cons2 sep x y rest :
  join sep (x :: y :: rest) = (x ++ sep ++ join sep (y :: rest))%string.
Proof. reflexivity. Qed.

Lemma join_split sep s : join (String sep EmptyString) (split sep s) = s.
Proof.
  induction s as [|c s IH]; simpl; [reflexivity|].
  pose proof (split_nonempty sep s) as Hn.
  destruct (Ascii.eqb_spec c sep) as [->|Hne];
    destruct (split sep s) as [|h t] eqn:E; try contradiction.
  - rewrite join_cons2, IH. reflexivity.
  - destruct t as [|h' t].
    + simpl in *. now rewrite IH.
    + rewrite <- IH, !join_cons2. reflexivity.
Qed.

Lemma count_char_join sep a :
  count_char sep (join (String sep EmptyString) a)
  = pred (List.length a) + count_in sep a.
Proof.
  induction a as [|x [|y rest] IH]; [reflexivity | simpl; lia |].
  rewrite join_cons2, !count_char_app, IH. simpl.
  rewrite Ascii.eqb_refl. lia.
Qed.

Lemma split_clean sep s : Forall (fun x => count_char sep x = 0) (split sep s).
Proof.
  induction s as [|c s IH]; simpl.
  - constructor; [reflexivity | constructor].
  - destruct (Ascii.eqb c sep) eqn:Ec.
    + constructor; [reflexivity | exact IH].
    + destruct (split sep s) as [|h t] eqn:E.
      * constructor; [simpl; now rewrite Ec | constructor].
      * inversion IH; subst. constructor; [simpl; rewrite Ec; assumption | assumption].
Qed.

Lemma split_clean_id sep x : count_char sep x = 0 -> split sep x = [x].
Proof.
  induction x as [|c x IH]; simpl; [reflexivity|].
  destruct (Ascii.eqb c sep); [discriminate|]. simpl.
  intros H. now rewrite (IH H).
Qed.

Lemma split_app_sep sep x rest :
  count_char sep x = 0 ->
  split sep (x ++ String sep rest) = x :: split sep rest.
Proof.
  induction x as [|c x IH]; simpl.
  - now rewrite Ascii.eqb_refl.
  - destruct (Ascii.eqb c sep); [discriminate|]. simpl.
    intros H. now rewrite (IH H).
Qed.

Lemma split_join sep a :
  a <> [] -> Forall (fun x => count_char sep x = 0) a ->
  split sep (join (String sep EmptyString) a) = a.
Proof.
  induction a as [|x [|y rest] IH]; intros Hne Hall; [contradiction | |].
  - inversion Hall; subst. now apply split_clean_id.
  - inversion Hall as [|? ? Hx Hrest]; subst.
    rewrite join_cons2. change (String sep "" ++ ?t)%string with (String sep t).
    rewrite split_app_sep by assumption.
    now rewrite IH.
Qed.

Lemma count_in_app c a b : count_in c (a ++ b) = count_in c a + count_in c b.
Proof. induction a as [|x a IH]; simpl; [reflexivity | rewrite IH; lia]. Qed.

Lemma count_in_zero c a :
  count_in c a = 0 <-> Forall (fun x => count_char c x = 0) a.
Proof.
  induction a as [|x a IH]; simpl; split; intros H.
  - constructor.
  - reflexivity.
  - constructor; [lia | apply IH; lia].
  - inversion H; subst. apply IH in H3. lia.
Qed.

(** Splitting on one character never creates occurrences of another. *)
Lemma count_in_split c sep s : count_in c (split sep s) <= count_char c s.
Proof.
  induction s as [|d s IH]; simpl; [lia|].
  destruct (Ascii.eqb d sep) eqn:Ed; simpl.
  - lia.
  - destruct (split sep s) as [|h t]; simpl in *; lia.
Qed.

Lemma count_char_join_other c sep a :
  c <> sep ->
  count_char c (join (String sep EmptyString) a) = count_in c a.
Proof.
  intros Hne. induction a as [|x [|y rest] IH]; [reflexivity | simpl; lia |].
  rewrite join_cons2, !count_char_app, IH. simpl.
  destruct (Ascii.eqb_spec sep c); [congruence | lia].
Qed.

End JsStrings.

(** ** SlideEditor *)

Section SlideProps.

Import Js SlideEditor.

Lemma array_set_head v h (t : list string) : array_set 0 v (h :: t) = v :: t.
Proof. reflexivity. Qed.

(** Editing the title leaves the lines after the first untouched. *)
Lemma title_onChange_body content v :
  count_char newline v = 0 -> body (title_onChange content v) = body content.
Proof.
  intros Hv. unfold body, title_onChange.
  pose proof (split_nonempty newline content) as Hn.
  pose proof (split_clean newline content) as Hc.
  destruct (split newline content) as [|h t]; [contradiction|].
  rewrite array_set_head. inversion Hc; subst.
  unfold nl. rewrite split_join; [reflexivity | discriminate |].
  constructor; assumption.
Qed.

(** Editing the body leaves the title untouched. *)
Lemma body_onChange_title content v :
  title (body_onChange content v) = title content.
Proof.
  unfold title, body_onChange.
  pose proof (split_nonempty newline content) as Hn.
  pose proof (split_clean newline content) as Hc.
  destruct (split newline content) as [|h t]; [contradiction|].
  inversion Hc; subst. unfold nl.
  change (String newline "" ++ v)%string with (String newline v).
  now rewrite split_app_sep.
Qed.





End SlideProps.


(** ** SheetEditor *)

Section SheetProps.

Import Js SheetEditor.

Lemma list_set_length {A} i (v : A) a : List.length (list_set i v a) = List.length a.
Proof.
  revert i; induction a as [|h t IH]; intros [|i]; simpl; auto.
Qed.

Lemma list_set_Forall {A} (P : A -> Prop) i v a :
  P v -> Forall P a -> Forall P (list_set i v a).
Proof.
  intros Hv. revert i; induction a as [|h t IH]; intros [|i] Ha; simpl;
    inversion Ha; subst; auto.
Qed.

Lemma array_set_length i v a :
  List.length a <= List.length (array_set i v a).
Proof.
  unfold array_set. destruct (Nat.ltb_spec i (List.length a)) as [Hlt|Hge].
  - rewrite length_app, length_firstn. cbn [List.length].
    rewrite length_skipn. lia.
  - rewrite !length_app. lia.
Qed.

Lemma count_in_repeat_empty c n : count_in c (repeat EmptyString n) = 0.
Proof. induction n; simpl; auto. Qed.

Lemma count_in_firstn c n a : count_in c (firstn n a) <= count_in c a.
Proof.
  revert n; induction a as [|x a IH]; intros [|n]; simpl; auto; try lia.
  specialize (IH n). lia.
Qed.

Lemma count_in_skipn c n a : count_in c (skipn n a) <= count_in c a.
Proof.
  revert n; induction a as [|x a IH]; intros [|n]; simpl; auto.
  specialize (IH n). lia.
Qed.

Lemma array_set_clean ch i v a :
  count_char ch v = 0 -> count_in ch a = 0 -> count_in ch (array_set i v a) = 0.
Proof.
  intros Hv Ha. unfold array_set. destruct (Nat.ltb i (List.length a)).
  - rewrite count_in_app. cbn [count_in].
    pose proof (count_in_firstn ch i a). pose proof (count_in_skipn ch (S i) a). lia.
  - rewrite !count_in_app, count_in_repeat_empty. cbn [count_in]. lia.
Qed.

Lemma ensureGrid_length rs : 50 <= List.length (ensureGrid rs).
Proof. unfold ensureGrid. rewrite length_map, length_app, repeat_length. lia. Qed.

Lemma ensureGrid_width rs :
  Forall (fun r => 20 <= List.length r) (ensureGrid rs).
Proof.
  unfold ensureGrid. apply Forall_map, Forall_forall. intros r _.
  rewrite length_app, repeat_length. lia.
Qed.

Lemma ensureGrid_clean ch rs :
  Forall (fun r => count_in ch r = 0) rs ->
  Forall (fun r => count_in ch r = 0) (ensureGrid rs).
Proof.
  intros H. unfold ensureGrid. apply Forall_map, Forall_app. split.
  - eapply Forall_impl; [|exact H]. simpl. intros r Hr.
    now rewrite count_in_app, count_in_repeat_empty, Hr.
  - apply Forall_forall. intros r Hr. apply repeat_spec in Hr. subst r.
    now rewrite count_in_app, !count_in_repeat_empty.
Qed.

(** No cell of the grid holds a newline: the content was split on them. *)
Lemma grid_no_newline content :
  Forall (fun r => count_in newline r = 0) (grid content).
Proof.
  apply ensureGrid_clean. unfold rows. apply Forall_map.
  eapply Forall_impl; [|apply (split_clean newline content)].
  simpl. intros l Hl. pose proof (count_in_split newline comma l). lia.
Qed.

Lemma newline_not_comma : newline <> comma.
Proof. discriminate. Qed.



Lemma rows_serialize_exact g :
  g <> [] ->
  Forall (fun r => r <> [] /\ count_in newline r = 0 /\ count_in comma r = 0) g ->
  rows (serialize g) = g.
Proof.
  intros Hne Hclean. unfold rows, serialize, nl.
  rewrite split_join.
  - clear Hne. induction Hclean as [|r g [Hr [_ Hc]] _ IH]; simpl; [reflexivity|].
    unfold cm in *. rewrite split_join, IH; auto. now apply count_in_zero.
  - destruct g; [contradiction | discriminate].
  - apply Forall_map. eapply Forall_impl; [|exact Hclean].
    simpl. intros r (_ & Hr & _). unfold cm.
    now rewrite count_char_join_other by exact newline_not_comma.
Qed.

Lemma grid_no_comma content :
  Forall (fun r => count_in comma r = 0) (grid content).
Proof.
  apply ensureGrid_clean. unfold rows. apply Forall_map, Forall_forall.
  intros l _. apply count_in_zero, split_clean.
Qed.


Lemma nth_error_Forall {A} (P : A -> Prop) a i x :
  Forall P a -> nth_error a i = Some x -> P x.
Proof.
  intros Ha Hx. apply nth_error_In in Hx.
  rewrite Forall_forall in Ha. auto.
Qed.

Lemma handleCellChange_rendered content r c val :
  r < List.length (grid content) ->
  handleCellChange content r c val = Some (serialize (edited_grid content r c val)).
Proof.
  intros Hr. unfold handleCellChange, edited_grid.
  destruct (nth_error (grid content) r) as [row|] eqn:E.
  - now rewrite (nth_error_nth _ _ [] E).
  - apply nth_error_None in E. lia.
Qed.

Lemma edited_grid_shape content r c val :
  r < List.length (grid content) ->
  List.length (edited_grid content r c val) = List.length (grid content)
  /\ Forall (fun row => 20 <= List.length row) (edited_grid content r c val).
Proof.
  intros Hr. unfold edited_grid. split; [apply list_set_length|].
  apply list_set_Forall; [|apply ensureGrid_width].
  pose proof (array_set_length c val (nth r (grid content) [])) as Hl.
  assert (20 <= List.length (nth r (grid content) [])); [|lia].
  pose proof (ensureGrid_width (rows content)) as Hw.
  rewrite Forall_forall in Hw. apply Hw, nth_In, Hr.
Qed.

Lemma edited_grid_clean ch content r c val :
  Forall (fun row => count_in ch row = 0) (grid content) ->
  count_char ch val = 0 ->
  Forall (fun row => count_in ch row = 0) (edited_grid content r c val).
Proof.
  intros Hg Hv. unfold edited_grid. apply list_set_Forall; [|exact Hg].
  apply array_set_clean; [exact Hv|].
  destruct (nth_error (grid content) r) as [row|] eqn:E.
  - rewrite (nth_error_nth _ _ [] E).
    exact (nth_error_Forall (fun row => count_in ch row = 0) _ _ _ Hg E).
  - apply nth_error_None in E. now rewrite nth_overflow.
Qed.

(** With neither newline nor comma typed, the editor reads back exactly the
    padded grid with the one cell replaced. *)
Lemma sheet_edit_reads_back content r c val :
  r < List.length (grid content) ->
  count_char newline val = 0 -> count_char comma val = 0 ->
  exists out, handleCellChange content r c val = Some out
    /\ rows out = edited_grid content r c val.
Proof.
  intros Hr Hn Hc. eexists; split; [now apply handleCellChange_rendered|].
  destruct (edited_grid_shape content r c val Hr) as [Hlen Hw].
  pose proof (ensureGrid_length (rows content)) as H50. fold (grid content) in H50.
  apply rows_serialize_exact.
  - intros E. rewrite E in Hlen. simpl in Hlen. lia.
  - pose proof (edited_grid_clean newline content r c val (grid_no_newline _) Hn) as H1.
    pose proof (edited_grid_clean comma content r c val (grid_no_comma _) Hc) as H2.
    rewrite Forall_forall in *. intros row Hrow.
    repeat split; auto.
    intros E. specialize (Hw row Hrow). rewrite E in Hw. simpl in Hw. lia.
Qed.




End SheetProps.

(** ** Tabs *)

Section TabProps.

Lemma closeTab_openTabIds fid st :
  openTabIds (closeTab fid st) = remaining fid (openTabIds st).
Proof. unfold closeTab. destruct (String.eqb (activeTabId st) fid); reflexivity. Qed.

Lemma closeTab_files fid st : files (closeTab fid st) = files st.
Proof. unfold closeTab. destruct (String.eqb (activeTabId st) fid); reflexivity. Qed.

(** Closing a tab that is not the active one leaves the selection alone. *)
Lemma closeTab_inactive fid st :
  activeTabId st <> fid -> activeTabId (closeTab fid st) = activeTabId st.
Proof.
  intros H. unfold closeTab.
  destruct (String.eqb_spec (activeTabId st) fid); [contradiction | reflexivity].
Qed.

(** The closed id is gone from the sequence: closing twice changes nothing
    more. *)
Lemma remaining_idempotent fid open :
  remaining fid (remaining fid open) = remaining fid open.
Proof.
  unfold remaining. induction open as [|x open IH]; simpl; [reflexivity|].
  destruct (String.eqb x fid) eqn:E; simpl; [exact IH|].
  rewrite E. simpl. now rewrite IH.
Qed.

Lemma remaining_not_in fid open : ~ In fid open -> remaining fid open = open.
Proof.
  unfold remaining. induction open as [|x open IH]; simpl; intros H; [reflexivity|].
  destruct (String.eqb_spec x fid) as [->|Hne]; simpl.
  - exfalso. apply H. now left.
  - rewrite IH; [reflexivity|]. intros Hin. apply H. now right.
Qed.

Lemma preceding_tab_last pre x fid :
  ~ In fid (pre ++ [x]) -> preceding_tab (pre ++ [x; fid]) fid = Some x.
Proof.
  induction pre as [|y pre IH]; simpl; intros H.
  - now rewrite String.eqb_refl.
  - destruct (pre ++ [x; fid]) as [|z rest] eqn:E.
    + destruct pre; discriminate.
    + destruct (String.eqb_spec z fid) as [->|Hne].
      * exfalso. apply H. right.
        destruct pre as [|p pre]; simpl in E; inversion E; subst.
        -- now left.
        -- now left.
      * apply IH. intros Hin. apply H. now right.
Qed.

(** Where the code and the specification's wording agree: the closed tab
    was the last of the sequence. *)
Lemma closeTab_last_is_preceding st pre x fid :
  openTabIds st = pre ++ [x; fid] -> ~ In fid (pre ++ [x]) ->
  activeTabId st = fid ->
  Some (activeTabId (closeTab fid st)) = preceding_tab (openTabIds st) fid.
Proof.
  intros Hopen Hnin Hact. rewrite Hopen, preceding_tab_last by assumption.
  unfold closeTab. rewrite Hact, String.eqb_refl, Hopen. simpl.
  change (pre ++ [x; fid]) with (pre ++ [x] ++ [fid]).
  rewrite app_assoc. fold (remaining fid ((pre ++ [x]) ++ [fid])).
  unfold remaining. rewrite filter_app. simpl. rewrite String.eqb_refl. simpl.
  rewrite app_nil_r. fold (remaining fid (pre ++ [x])).
  rewrite remaining_not_in by assumption. now rewrite last_last.
Qed.

(** C1, as the claim words it, fails: with tabs a, b, c open and b active,
    closing b activates c, the last remaining tab, and not a, the tab that
    immediately preceded b. *)
Lemma closeTab_middle_selects_last :
  activeTabId three_tabs = "b"
  /\ openTabIds (closeTab "b" three_tabs) = ["a"; "c"]
  /\ preceding_tab (openTabIds three_tabs) "b" = Some "a"
  /\ activeTabId (closeTab "b" three_tabs) = "c"
  /\ Some (activeTabId (closeTab "b" three_tabs))
     <> preceding_tab (openTabIds three_tabs) "b".
Proof. repeat split; try reflexivity. discriminate. Qed.

(** C1 (amended): closing the tab that is currently active removes it from
    the open-tab sequence and activates the last tab of the remaining
    sequence, or no tab (the empty id) when nothing remains. *)
Theorem closeTab_active_selects_last (st : State) (fid : string) :
  activeTabId st = fid ->
  openTabIds (closeTab fid st) = remaining fid (openTabIds st)
  /\ activeTabId (closeTab fid st) = last (remaining fid (openTabIds st)) EmptyString
  /\ (remaining fid (openTabIds st) = [] -> activeTabId (closeTab fid st) = EmptyString).
Proof.
  intros Hact. split; [apply closeTab_openTabIds|].
  assert (H : activeTabId (closeTab fid st)
              = last (remaining fid (openTabIds st)) EmptyString).
  { unfold closeTab. rewrite Hact, String.eqb_refl. reflexivity. }
  split; [exact H|]. intros E. now rewrite H, E.
Qed.

Lemma closeTab_active_selects_last_witness :
  openTabIds (closeTab "b" three_tabs) = remaining "b" (openTabIds three_tabs)
  /\ activeTabId (closeTab "b" three_tabs)
     = last (remaining "b" (openTabIds three_tabs)) EmptyString
  /\ (remaining "b" (openTabIds three_tabs) = [] ->
      activeTabId (closeTab "b" three_tabs) = EmptyString).
Proof. apply (closeTab_active_selects_last three_tabs "b"). reflexivity. Defined.

End TabProps.

(** ** Workspace store *)

Section StoreProps.

Context {host : Host}.


Lemma NoDup_snoc {A} (l : list A) x : NoDup (l ++ [x]) <-> NoDup l /\ ~ In x l.
Proof.
  split.
  - intros H. apply NoDup_remove in H. rewrite app_nil_r in H. exact H.
  - intros [Hl Hx]. apply NoDup_app; [exact Hl | repeat constructor; intros [] | ].
    intros y Hy [<-|[]]. contradiction.
Qed.


End StoreProps.


(** ** Action dispatcher: [update_file] *)

Section DispatchProps.

Context {host : Host}.

Lemma find_first {A} (p : A -> bool) l x :
  find p l = Some x ->
  exists pre post, l = pre ++ x :: post /\ p x = true
                   /\ Forall (fun y => p y = false) pre.
Proof.
  induction l as [|y l IH]; simpl; [discriminate|].
  destruct (p y) eqn:E; intros H.
  - inversion H; subst. exists [], l. repeat split; auto.
  - destruct (IH H) as (pre & post & -> & Hx & Hpre).
    exists (y :: pre), post. repeat split; auto.
Qed.

Lemma find_first_inv {A} (p : A -> bool) pre x post :
  p x = true -> Forall (fun y => p y = false) pre ->
  find p (pre ++ x :: post) = Some x.
Proof.
  intros Hx Hpre. induction Hpre as [|y pre Hy _ IH]; simpl.
  - now rewrite Hx.
  - now rewrite Hy.
Qed.

Lemma find_none_iff {A} (p : A -> bool) l :
  find p l = None <-> Forall (fun y => p y = false) l.
Proof.
  induction l as [|y l IH]; simpl.
  - split; [constructor | reflexivity].
  - destruct (p y) eqn:E; split; intros H.
    + discriminate.
    + inversion H; congruence.
    + constructor; [exact E | now apply IH].
    + inversion H; subst. now apply IH.
Qed.

Lemma dispatch_update_file a fs rnd st :
  Action.action a = str "update_file" ->
  dispatch a fs rnd st
  = match resolveTarget a fs with
    | Some target => updateFileContent (VirtualFile.id target) (Action.content a) st
    | None => st
    end.
Proof. intros H. unfold dispatch. now rewrite H. Qed.

(** C5 (amended): an [update_file] directive resolves to the first file, in
    file-set order, whose name equals [file_name] or whose id equals
    [file_id]; when no file matches either way the directive is dropped and
    the state, the file set included, is unchanged. *)
Theorem update_file_resolves_first_match
  (a : Action.t) (fs : list VirtualFile.t) (rnd : string) (st : State) :
  Action.action a = str "update_file" ->
  match resolveTarget a fs with
  | Some t =>
      (exists pre post, fs = pre ++ t :: post
                        /\ matches a t = true
                        /\ Forall (fun f => matches a f = false) pre)
      /\ dispatch a fs rnd st
         = updateFileContent (VirtualFile.id t) (Action.content a) st
  | None =>
      Forall (fun f => matches a f = false) fs
      /\ dispatch a fs rnd st = st
  end.
Proof.
  intros Ha. rewrite (dispatch_update_file a fs rnd st Ha).
  destruct (resolveTarget a fs) as [t|] eqn:E; unfold resolveTarget in E.
  - split; [now apply find_first | reflexivity].
  - split; [now apply find_none_iff | reflexivity].
Qed.

(** Where the code and the specification's wording agree: no file matches
    the directive by id, or none matches it by name. *)
Lemma resolveTarget_name_only a fs :
  Forall (fun f => strict_eq (str (VirtualFile.id f)) (Action.file_id a) = false) fs ->
  resolveTarget a fs = resolve_name_first a fs.
Proof.
  intros H. unfold resolveTarget, resolve_name_first, matches.
  induction H as [|f fs Hf _ IH]; cbn [find]; [reflexivity|].
  rewrite Hf, orb_false_r.
  destruct (strict_eq (VirtualFile.name f) (Action.file_name a)); [reflexivity|].
  exact IH.
Qed.

Lemma resolveTarget_id_fallback a fs :
  Forall (fun f => strict_eq (VirtualFile.name f) (Action.file_name a) = false) fs ->
  resolveTarget a fs = resolve_name_first a fs.
Proof.
  intros H. unfold resolveTarget, resolve_name_first, matches.
  assert (Hn : find (fun f => strict_eq (VirtualFile.name f) (Action.file_name a)) fs = None)
    by now apply find_none_iff.
  rewrite Hn. clear Hn.
  induction H as [|f fs Hf _ IH]; cbn [find]; [reflexivity|].
  rewrite Hf. cbn [orb].
  destruct (strict_eq (str (VirtualFile.id f)) (Action.file_id a)); [reflexivity|].
  exact IH.
Qed.

(** [updateFileContent] touches the content of the files carrying the id
    and nothing else. *)
Lemma updateFileContent_files fid c st :
  Forall2 (fun f f' =>
             VirtualFile.id f' = VirtualFile.id f
             /\ VirtualFile.name f' = VirtualFile.name f
             /\ VirtualFile.type f' = VirtualFile.type f
             /\ VirtualFile.content f'
                = if String.eqb (VirtualFile.id f) fid then c else VirtualFile.content f)
          (files st) (files (updateFileContent fid c st)).
Proof.
  unfold updateFileContent. simpl.
  induction (files st) as [|f fs IH]; simpl; constructor; auto.
  destruct (String.eqb (VirtualFile.id f) fid); simpl; auto.
Qed.

Lemma updateFileContent_frame fid c st :
  apiKey (updateFileContent fid c st) = apiKey st
  /\ openTabIds (updateFileContent fid c st) = openTabIds st
  /\ activeTabId (updateFileContent fid c st) = activeTabId st
  /\ isProcessing (updateFileContent fid c st) = isProcessing st
  /\ chatInput (updateFileContent fid c st) = chatInput st.
Proof. repeat split. Qed.

Lemma map_update_unique fid c pre (t : VirtualFile.t) post :
  VirtualFile.id t = fid ->
  NoDup (map VirtualFile.id (pre ++ t :: post)) ->
  map (fun f => if String.eqb (VirtualFile.id f) fid
                then VirtualFile.with_content f c else f) (pre ++ t :: post)
  = pre ++ VirtualFile.with_content t c :: post.
Proof.
  intros Ht Hnd. rewrite map_app. simpl. rewrite Ht, String.eqb_refl.
  rewrite map_app in Hnd. simpl in Hnd. apply NoDup_remove in Hnd.
  destruct Hnd as [_ Hnin]. rewrite Ht in Hnin.
  assert (Hid : forall l, ~ In fid (map VirtualFile.id l) ->
                map (fun f => if String.eqb (VirtualFile.id f) fid
                              then VirtualFile.with_content f c else f) l = l).
  { induction l as [|f l IH]; simpl; intros Hn; [reflexivity|].
    destruct (String.eqb_spec (VirtualFile.id f) fid) as [E|E].
    - exfalso. apply Hn. now left.
    - rewrite IH; [reflexivity|]. intros Hin. apply Hn. now right. }
  rewrite !Hid; [reflexivity | |]; intros Hin; apply Hnin, in_or_app; auto.
Qed.

(** C8 (amended): when the file whose name matches [file_name] is the first
    file of the set to match the directive by name or by id, dispatching
    the directive stores the directive's [content] value, whatever it is,
    as the content of every file carrying that file's id, keeps the id,
    name and type of every file, and keeps the content of every file with
    another id; with pairwise distinct ids exactly that one file changes. *)
Theorem update_file_overwrites_named_file
  (a : Action.t) (rnd : string) (st : State)
  (pre post : list VirtualFile.t) (t : VirtualFile.t) :
  Action.action a = str "update_file" ->
  strict_eq (VirtualFile.name t) (Action.file_name a) = true ->
  Forall (fun f => matches a f = false) pre ->
  let fs := pre ++ t :: post in
  let st' := dispatch a fs rnd st in
  Forall2 (fun f f' =>
             VirtualFile.id f' = VirtualFile.id f
             /\ VirtualFile.name f' = VirtualFile.name f
             /\ VirtualFile.type f' = VirtualFile.type f
             /\ VirtualFile.content f'
                = if String.eqb (VirtualFile.id f) (VirtualFile.id t)
                  then Action.content a else VirtualFile.content f)
          (files st) (files st')
  /\ (files st = fs -> NoDup (map VirtualFile.id fs) ->
      files st' = pre ++ VirtualFile.with_content t (Action.content a) :: post).
Proof.
  intros Ha Hname Hpre fs st'.
  assert (Ht : resolveTarget a fs = Some t).
  { apply find_first_inv; [|exact Hpre]. unfold matches. now rewrite Hname. }
  assert (Hd : st' = updateFileContent (VirtualFile.id t) (Action.content a) st).
  { unfold st'. now rewrite dispatch_update_file, Ht. }
  rewrite Hd. split; [apply updateFileContent_files|].
  intros Hfs Hnd. unfold updateFileContent. simpl. rewrite Hfs.
  now apply map_update_unique.
Qed.

(** An [update_file] directive without a [content] field stores
    [undefined] in the file it resolves to. *)
Lemma update_file_absent_content a fs rnd st t :
  Action.action a = str "update_file" ->
  Action.content a = undefined ->
  resolveTarget a fs = Some t ->
  Forall (fun f => VirtualFile.id f = VirtualFile.id t ->
                   is_string (VirtualFile.content f) = false)
         (files (dispatch a fs rnd st)).
Proof.
  intros Ha Hc Ht. rewrite dispatch_update_file, Ht, Hc by exact Ha.
  unfold updateFileContent. simpl. apply Forall_map, Forall_forall.
  intros f _. destruct (String.eqb_spec (VirtualFile.id f) (VirtualFile.id t)); simpl.
  - reflexivity.
  - intros E. contradiction.
Qed.

End DispatchProps.

(** C5, as the claim words it, fails: the directive names [doc_b] by
    [file_name] and [doc_a] by [file_id]; a file matches by name, yet the
    dispatcher resolves to the file matched by id, because it stands
    earlier in the file set. *)
Lemma update_file_id_match_shadows_name_match :
  resolve_name_first update_b_id_1 [doc_a; doc_b] = Some doc_b
  /\ resolveTarget update_b_id_1 [doc_a; doc_b] = Some doc_a
  /\ resolveTarget update_b_id_1 [doc_a; doc_b]
     <> resolve_name_first update_b_id_1 [doc_a; doc_b].
Proof. repeat split; try reflexivity. discriminate. Qed.

Lemma update_file_resolves_first_match_witness :
  match resolveTarget update_b_id_1 [doc_a; doc_b] with
  | Some t =>
      (exists pre post, [doc_a; doc_b] = pre ++ t :: post
                        /\ matches update_b_id_1 t = true
                        /\ Forall (fun f => matches update_b_id_1 f = false) pre)
      /\ dispatch update_b_id_1 [doc_a; doc_b] "0.i" two_docs
         = updateFileContent (VirtualFile.id t) (Action.content update_b_id_1) two_docs
  | None =>
      Forall (fun f => matches update_b_id_1 f = false) [doc_a; doc_b]
      /\ dispatch update_b_id_1 [doc_a; doc_b] "0.i" two_docs = two_docs
  end.
Proof.
  apply (update_file_resolves_first_match update_b_id_1 [doc_a; doc_b] "0.i" two_docs).
  reflexivity.
Defined.

(** C8, as the claim words it, fails: [file_name] matches [doc_b], but the
    directive also carries the id of [doc_a]; dispatching it leaves [doc_b]
    as it was and overwrites [doc_a], a file the directive does not name. *)
Lemma update_file_name_match_untouched :
  strict_eq (VirtualFile.name doc_b) (Action.file_name update_b_id_1) = true
  /\ files (dispatch update_b_id_1 (files two_docs) "0.i" two_docs)
     = [VirtualFile.with_content doc_a (str "new"); doc_b]
  /\ nth_error (files (dispatch update_b_id_1 (files two_docs) "0.i" two_docs)) 1
     <> Some (VirtualFile.with_content doc_b (Action.content update_b_id_1)).
Proof. repeat split; try reflexivity. discriminate. Qed.

Lemma update_file_overwrites_named_file_witness :
  let a := Action.mk (str "update_file") undefined undefined (str "b.doc") (str "new") in
  let st' := dispatch a ([doc_a] ++ doc_b :: []) "0.i" two_docs in
  Forall2 (fun f f' =>
             VirtualFile.id f' = VirtualFile.id f
             /\ VirtualFile.name f' = VirtualFile.name f
             /\ VirtualFile.type f' = VirtualFile.type f
             /\ VirtualFile.content f'
                = if String.eqb (VirtualFile.id f) (VirtualFile.id doc_b)
                  then Action.content a else VirtualFile.content f)
          (files two_docs) (files st')
  /\ (files two_docs = [doc_a] ++ doc_b :: [] ->
      NoDup (map VirtualFile.id ([doc_a] ++ doc_b :: [])) ->
      files st' = [doc_a] ++ VirtualFile.with_content doc_b (Action.content a) :: []).
Proof.
  apply (update_file_overwrites_named_file
           (Action.mk (str "update_file") undefined undefined (str "b.doc") (str "new"))
           "0.i" two_docs [doc_a] [] doc_b).
  - reflexivity.
  - reflexivity.
  - repeat constructor.
Defined.


(** ** Assistant client *)

Section AssistantProps.

Context {host : Host}.

(** *** The guards of [handleSendMessage] *)

Lemma handleSendMessage_blank now st :
  trim (chatInput st) = EmptyString -> handleSendMessage now st = Ignored.
Proof. intros H. unfold handleSendMessage. now rewrite H. Qed.

Lemma handleSendMessage_no_key now st :
  apiKey st = EmptyString -> handleSendMessage now st = Ignored.
Proof.
  intros H. unfold handleSendMessage. rewrite H. simpl. now rewrite orb_true_r.
Qed.

Lemma handleSendMessage_no_chat now st :
  match activeFile st with
  | Some f => strict_eq (VirtualFile.type f) (str "chat") = false
  | None => True
  end ->
  handleSendMessage now st = Ignored.
Proof.
  intros H. unfold handleSendMessage.
  destruct (_ || _); [reflexivity|].
  destruct (activeFile st) as [f|]; [|reflexivity].
  now rewrite H.
Qed.

(** The handler never reads [isProcessing]: whether a request goes out does
    not depend on the flag. *)
Lemma handleSendMessage_ignores_flag now st b st1 p :
  handleSendMessage now st = InFlight st1 p ->
  handleSendMessage now (setIsProcessing b st) = InFlight st1 p.
Proof.
  unfold handleSendMessage, activeFile. simpl.
  destruct (_ || _); [discriminate|].
  destruct (findFile (activeTabId st) (files st)) as [f|]; [|discriminate].
  destruct (negb (strict_eq _ _)); [discriminate|].
  destruct (JSON_parse _) as [parsed|]; [|discriminate].
  destruct (spread parsed) as [history|]; [|discriminate].
  destruct (negb (forallb _ (files st))); [discriminate|].
  destruct (negb (forallb readable _)); [discriminate|].
  intros H. exact H.
Qed.

(** The RUN button, by contrast, is dead while a send is outstanding. *)
Lemma clickRun_while_processing sys now :
  isProcessing (ui sys) = true -> step sys (ClickRun now) = sys.
Proof. intros H. simpl. now rewrite H. Qed.

(** *** Files under an id *)

Lemma findFile_map g fid fs :
  (forall f, VirtualFile.id (g f) = VirtualFile.id f) ->
  findFile fid (map g fs) = option_map g (findFile fid fs).
Proof.
  intros Hg. unfold findFile. induction fs as [|f fs IH]; simpl; [reflexivity|].
  rewrite Hg. destruct (String.eqb (VirtualFile.id f) fid); [reflexivity | exact IH].
Qed.

Lemma findFile_id fid fs f : findFile fid fs = Some f -> VirtualFile.id f = fid.
Proof.
  unfold findFile. intros H. apply find_some in H. now apply String.eqb_eq.
Qed.

Lemma findFile_updateFileContent fid gid c st :
  findFile fid (files (updateFileContent gid c st))
  = option_map (fun f => if String.eqb (VirtualFile.id f) gid
                         then VirtualFile.with_content f c else f)
               (findFile fid (files st)).
Proof.
  unfold updateFileContent. simpl. apply findFile_map.
  intros f. now destruct (String.eqb (VirtualFile.id f) gid).
Qed.

Lemma hasFile_updateFileContent fid gid c st :
  hasFile fid st -> hasFile fid (updateFileContent gid c st).
Proof.
  unfold hasFile. rewrite findFile_updateFileContent.
  destruct (findFile fid (files st)); [discriminate | auto].
Qed.

Lemma find_app_found {A} (p : A -> bool) l l' x :
  find p l = Some x -> find p (l ++ l') = Some x.
Proof.
  induction l as [|y l IH]; simpl; [discriminate|].
  destruct (p y); auto.
Qed.

Lemma hasFile_createNewFile fid rnd ty nm ct st :
  hasFile fid st -> hasFile fid (fst (createNewFile rnd ty nm ct st)).
Proof.
  unfold hasFile, findFile. simpl.
  destruct (find _ (files st)) as [f|] eqn:E; [|contradiction].
  intros _. now rewrite (find_app_found _ _ _ _ E).
Qed.

Lemma hasFile_dispatch fid a fs rnd st :
  hasFile fid st -> hasFile fid (dispatch a fs rnd st).
Proof.
  intros H. unfold dispatch.
  destruct (strict_eq (Action.action a) (str "create_file")).
  - destruct (createNewFile_throws _ _); [exact H | now apply hasFile_createNewFile].
  - destruct (strict_eq (Action.action a) (str "update_file")); [|exact H].
    destruct (resolveTarget a fs); [|exact H].
    now apply hasFile_updateFileContent.
Qed.

Lemma hasFile_extractAction fid fullText fs rnd st :
  hasFile fid st -> hasFile fid (snd (extractAction fullText fs rnd st)).
Proof.
  intros H. unfold extractAction.
  destruct (match_jsonBlock fullText) as [[block stripped]|]; [|exact H].
  destruct (JSON_parse (str block)) as [actionData|]; [|exact H].
  simpl. destruct (Action.of_json actionData); [|exact H].
  now apply hasFile_dispatch.
Qed.

(** Writing a history under an id that names a file. *)
Lemma updateFileContent_holds fid l st :
  hasFile fid st ->
  holds_history (updateFileContent fid (str (JSON_stringify (JArr l))) st) fid l.
Proof.
  unfold hasFile, holds_history. intros H. rewrite findFile_updateFileContent.
  destruct (findFile fid (files st)) as [f|] eqn:E; [|contradiction].
  apply findFile_id in E. simpl. rewrite E, String.eqb_refl.
  eexists; split; reflexivity.
Qed.

Lemma holds_history_setIsProcessing b st fid l :
  holds_history st fid l -> holds_history (setIsProcessing b st) fid l.
Proof. intros H. exact H. Qed.

(** *** The continuation *)

(** Whatever happened to the page while the request was outstanding, the
    continuation stores the history of its closure plus one message. *)
Lemma settle_holds p o now rnd st :
  hasFile (chatId p) st ->
  exists display,
    holds_history (settle p o now rnd st) (chatId p)
                  (newHistory p ++ [replyMessage o display now])
    /\ isProcessing (settle p o now rnd st) = false.
Proof.
  intros H. destruct o as [fullText|message]; simpl.
  - destruct (extractAction fullText (snapshot p) rnd
                (setCurrentSpecialist (specialistOf fullText) st))
      as [display st2] eqn:E.
    exists display. split; [|reflexivity].
    apply holds_history_setIsProcessing, updateFileContent_holds.
    change st2 with (snd (display, st2)). rewrite <- E.
    apply hasFile_extractAction. exact H.
  - exists EmptyString. split; [|reflexivity].
    apply holds_history_setIsProcessing, updateFileContent_holds. exact H.
Qed.

Lemma replyMessage_role o display now :
  read (replyMessage o display now) "role" = Some (str "model").
Proof. destruct o; reflexivity. Qed.

(** *** One send *)








(** The hypotheses of [send_appends_two_messages] are what completing a
    send takes: a send that completes has passed every guard, parsed an
    iterable history and read a string from every file. *)
Lemma sendAndSettle_completes now o now' rnd st st' :
  sendAndSettle now o now' rnd st = Some st' ->
  trim (chatInput st) <> EmptyString
  /\ apiKey st <> EmptyString
  /\ (exists f parsed history,
        activeFile st = Some f
        /\ VirtualFile.type f = str "chat"
        /\ JSON_parse (VirtualFile.content f) = Some parsed
        /\ spread parsed = Some history)
  /\ forallb renders (files st) = true.
Proof.
  unfold sendAndSettle, handleSendMessage.
  destruct (String.eqb_spec (trim (chatInput st)) EmptyString) as [|Hin]; [discriminate|].
  destruct (String.eqb_spec (apiKey st) EmptyString) as [|Hkey]; [discriminate|].
  simpl. destruct (activeFile st) as [f|]; [|discriminate].
  destruct (strict_eq (VirtualFile.type f) (str "chat")) eqn:Hty; [|discriminate].
  simpl. destruct (JSON_parse (VirtualFile.content f)) as [parsed|] eqn:Hp; [|discriminate].
  destruct (spread parsed) as [history|] eqn:Hs; [|discriminate].
  destruct (forallb _ (files st)) eqn:Hstr; [|discriminate].
  intros _. repeat split; auto.
  exists f, parsed, history. repeat split; auto.
  destruct (VirtualFile.type f) as [[| | |k| |]|]; try discriminate.
  simpl in Hty. apply String.eqb_eq in Hty. now subst.
Qed.

(** C10: without an API key a send is a complete no-op, from the Enter key
    and from the RUN button alike: the page state, the chat history
    included, and the set of outstanding requests are unchanged. *)
Theorem send_without_api_key_is_noop (sys : System) (now : Z) :
  apiKey (ui sys) = EmptyString ->
  handleSendMessage now (ui sys) = Ignored
  /\ step sys (PressEnter now) = sys
  /\ step sys (ClickRun now) = sys.
Proof.
  intros H. pose proof (handleSendMessage_no_key now (ui sys) H) as E.
  split; [exact E|]. simpl. unfold send. rewrite E.
  split; [reflexivity|]. now destruct (isProcessing (ui sys)).
Qed.

End AssistantProps.


Lemma send_without_api_key_is_noop_witness :
  let sys := mkSystem (typed_hello EmptyString) [] in
  handleSendMessage 1 (ui sys) = Ignored
  /\ step sys (PressEnter 1) = sys
  /\ step sys (ClickRun 1) = sys.
Proof.
  apply (send_without_api_key_is_noop (mkSystem (typed_hello EmptyString) []) 1).
  reflexivity.
Defined.

(** ** The page as a transition system *)

Section SystemProps.

Context {host : Host}.

Lemma handleSendMessage_InFlight_flag now st st1 p :
  handleSendMessage now st = InFlight st1 p -> isProcessing st1 = true.
Proof.
  unfold handleSendMessage.
  destruct (_ || _); [discriminate|].
  destruct (activeFile st) as [f|]; [|discriminate].
  destruct (negb (strict_eq _ _)); [discriminate|].
  destruct (JSON_parse _) as [parsed|]; [|discriminate].
  destruct (spread parsed) as [history|]; [|discriminate].
  destruct (negb (forallb _ (files st))); [discriminate|].
  destruct (negb (forallb readable _)); [discriminate|].
  intros H. inversion H. reflexivity.
Qed.

Lemma settle_flag p o now rnd st : isProcessing (settle p o now rnd st) = false.
Proof.
  destruct o as [fullText|message]; simpl; [|reflexivity].
  now destruct (extractAction _ _ _ _).
Qed.

Lemma remove_nth_length {A} i (l : list A) x :
  nth_error l i = Some x -> S (List.length (remove_nth i l)) = List.length l.
Proof.
  revert i; induction l as [|y l IH]; intros [|i]; simpl; try discriminate; auto.
Qed.

Lemma one_in_flight_step sys e :
  not_enter e = true -> one_in_flight sys -> one_in_flight (step sys e).
Proof.
  intros He [Hlen Hflag]. destruct e; try discriminate; simpl.
  - split; simpl; auto.
  - destruct (isProcessing (ui sys)) eqn:Ep; [now split|].
    assert (Hout : outstanding sys = []).
    { destruct (outstanding sys); [reflexivity|].
      assert (false = true) by (apply Hflag; discriminate). discriminate. }
    unfold send. destruct (handleSendMessage now (ui sys)) as [|st|st|st p] eqn:E.
    + split; [exact Hlen | intros H; rewrite Hout in H; contradiction].
    + split; simpl; [exact Hlen | intros H; rewrite Hout in H; contradiction].
    + split; simpl; [exact Hlen | intros H; rewrite Hout in H; contradiction].
    + split; simpl.
      * rewrite Hout. simpl. lia.
      * intros _. eapply handleSendMessage_InFlight_flag; eauto.
  - destruct (nth_error (outstanding sys) i) as [p|] eqn:E; [|now split].
    pose proof (remove_nth_length _ _ _ E) as Hl.
    split; simpl.
    + lia.
    + intros Hne. destruct (remove_nth i (outstanding sys)); [contradiction|].
      simpl in Hl. lia.
  - split; simpl; auto.
  - destruct (activeFile (ui sys)); [|now split].
    destruct (hasEditor t); now split.
  - destruct (findFile fid (files (ui sys))); [|now split].
    split; simpl; auto. intros H. rewrite <- (Hflag H).
    now destruct (existsb _ _).
  - destruct (findFile fid (files (ui sys))); [|now split].
    destruct (existsb _ _); [|now split].
    split; simpl; auto. intros H. rewrite <- (Hflag H).
    unfold closeTab. now destruct (String.eqb _ _).
Qed.

(** What the RUN button alone guarantees: on a page where Enter is never
    pressed in the chat input, two requests are never outstanding
    together. *)
Lemma single_request_without_enter key trace :
  forallb not_enter trace = true ->
  one_in_flight (run (boot key) trace).
Proof.
  unfold run. assert (H0 : one_in_flight (boot key)) by (split; simpl; [lia | congruence]).
  revert H0. generalize (boot key) as sys.
  induction trace as [|e trace IH]; simpl; intros sys Hinv Hall; [exact Hinv|].
  apply andb_true_iff in Hall. destruct Hall as [He Hall].
  apply IH; [|exact Hall]. now apply one_in_flight_step.
Qed.

End SystemProps.

(** A slide without newline is within reach of the page: the assistant
    creates it, and the title edit then stores a content without newline
    (compare [slide_title_edit_no_newline]). *)
Lemma assistant_slide_then_retitle :
  let sys := run (boot "k") retitle_trace in
  exists f, activeFile (ui sys) = Some f
            /\ VirtualFile.type f = str "slide"
            /\ VirtualFile.content f = str "Plan".
Proof. eexists. split; [vm_compute; reflexivity|]. split; reflexivity. Qed.

(** C2: the claim fails on the code at this input.  A first message is
    entered and its request is outstanding ([isProcessing] is set); the
    user types again and presses Enter.  The RUN button is dead in that
    state, but the Enter key calls [handleSendMessage], which does not
    test the flag: a second request goes out while the first is still
    outstanding.  When the first one settles the flag is cleared although
    a request remains outstanding. *)
Theorem enter_key_sends_while_processing :
  let sys := run (boot "k") [TypeChat "first"; PressEnter 1; TypeChat "second"] in
  isProcessing (ui sys) = true
  /\ List.length (outstanding sys) = 1
  /\ step sys (ClickRun 2) = sys
  /\ List.length (outstanding (step sys (PressEnter 2))) = 2
  /\ (let sys' := step (step sys (PressEnter 2)) (Settle 0 (Resolved "one") 3 "0.a") in
      isProcessing (ui sys') = false /\ List.length (outstanding sys') = 1).
Proof. vm_compute. repeat split. Qed.

(** C9: the claim fails on the code at this input.  The reply ends in an
    [update_file] block that names the document and has no [content]
    field; the dispatcher stores [undefined] as the document's content.
    The next send then throws while building the workspace snapshot
    ([f.content.substring]): the user message is stored, no request is
    issued, and [isProcessing] stays set. *)
Theorem update_file_without_content_stores_undefined :
  let sys := run (boot "k") absent_content_trace in
  (exists f, findFile "i" (files (ui sys)) = Some f
             /\ VirtualFile.name f = str "Untitled.doc"
             /\ VirtualFile.content f = undefined
             /\ is_string (VirtualFile.content f) = false
             /\ VirtualFile.well_typed f = false)
  /\ (let sys' := run sys [TypeChat "again"; PressEnter 3] in
      outstanding sys' = [] /\ isProcessing (ui sys') = true).
Proof.
  cbv zeta. split.
  - eexists. split; [vm_compute; reflexivity|]. repeat split.
  - vm_compute. split; reflexivity.
Qed.

(* ================================================================== *)
(** * Part III: further properties of the code                         *)
(* ================================================================== *)

(** ** SlideEditor: what an edit reads back as *)

Section SlideRoundTrips.

Import Js SlideEditor.

(** X1: a title edit (the input holds no newline) reads back as the typed
    title and leaves the body as it was; typing the title that is already
    there stores the content unchanged. *)
Theorem slide_title_round_trip (content v : string) :
  count_char newline v = 0 ->
  title (onChange Title content v) = v
  /\ body (onChange Title content v) = body content
  /\ onChange Title content (title content) = content.
Proof.
  intros Hv. split; [|split].
  - simpl. unfold title, title_onChange.
    pose proof (split_nonempty newline content) as Hn.
    pose proof (split_clean newline content) as Hc.
    destruct (split newline content) as [|h t]; [contradiction|].
    rewrite array_set_head. inversion Hc as [|? ? Hh Ht]; subst.
    unfold nl. rewrite split_join; [reflexivity | discriminate |].
    now constructor.
  - simpl. now apply title_onChange_body.
  - simpl. unfold title, title_onChange.
    pose proof (split_nonempty newline content) as Hn.
    pose proof (join_split newline content) as Hj.
    destruct (split newline content) as [|h t]; [contradiction|].
    rewrite array_set_head. exact Hj.
Qed.

(** X2: a body edit reads back as the typed body, whatever it holds, and
    leaves the title as it was.  Typing the body that is already there
    stores the content unchanged when it had a newline, and appends one to
    a content that had none. *)
Theorem slide_body_round_trip (content v : string) :
  body (onChange Body content v) = v
  /\ title (onChange Body content v) = title content
  /\ onChange Body content (body content)
     = if Nat.eqb (count_char newline content) 0
       then (content ++ nl)%string else content.
Proof.
  split; [|split].
  - simpl. unfold body, body_onChange.
    pose proof (split_nonempty newline content) as Hn.
    pose proof (split_clean newline content) as Hc.
    destruct (split newline content) as [|h t]; [contradiction|].
    inversion Hc as [|? ? Hh Ht]; subst. unfold nl.
    change (String newline EmptyString ++ v)%string with (String newline v).
    rewrite split_app_sep by assumption. simpl tl. apply join_split.
  - simpl. apply body_onChange_title.
  - simpl. unfold body, body_onChange.
    pose proof (split_nonempty newline content) as Hn.
    pose proof (join_split newline content) as Hj.
    pose proof (split_length newline content) as Hl.
    destruct (split newline content) as [|h t]; [contradiction|].
    destruct t as [|y rest]; simpl in Hl.
    + injection Hl as Hl. rewrite <- Hl. simpl in Hj. subst h. reflexivity.
    + injection Hl as Hl. rewrite <- Hl. simpl Nat.eqb. simpl tl.
      rewrite <- Hj at 2. unfold nl. now rewrite join_cons2.
Qed.

End SlideRoundTrips.

Lemma slide_title_round_trip_witness :
  SlideEditor.title (SlideEditor.onChange SlideEditor.Title "Title" "Plan") = "Plan"
  /\ SlideEditor.body (SlideEditor.onChange SlideEditor.Title "Title" "Plan")
     = SlideEditor.body "Title"
  /\ SlideEditor.onChange SlideEditor.Title "Title" (SlideEditor.title "Title") = "Title".
Proof. apply (slide_title_round_trip "Title" "Plan"). reflexivity. Defined.

(** ** SheetEditor: padding and read-back *)

Section SheetReadBack.

Import Js SheetEditor Grid.

Lemma nth_pad_row j (r : list string) k :
  nth j (r ++ repeat EmptyString k) EmptyString = nth j r EmptyString.
Proof.
  destruct (Nat.lt_ge_cases j (List.length r)) as [Hlt|Hge].
  - now apply app_nth1.
  - rewrite app_nth2 by exact Hge. rewrite (nth_overflow r) by exact Hge.
    generalize (j - List.length r) as i. clear.
    induction k as [|k IH]; intros [|i]; simpl; auto.
Qed.

Lemma ensureGrid_rows_length rs :
  List.length (ensureGrid rs) = Nat.max 50 (List.length rs).
Proof. unfold ensureGrid. rewrite length_map, length_app, repeat_length. lia. Qed.

Lemma cell_ensureGrid rs i j : cell (ensureGrid rs) i j = cell rs i j.
Proof.
  unfold cell, ensureGrid.
  set (pad := fun r : list string => r ++ repeat EmptyString (20 - List.length r)).
  set (filler := repeat (repeat EmptyString 10) (50 - List.length rs)).
  destruct (Nat.lt_ge_cases i (List.length (rs ++ filler))) as [Hlt|Hge].
  - rewrite (nth_indep _ [] (pad [])) by now rewrite length_map.
    rewrite map_nth. unfold pad at 1. rewrite nth_pad_row.
    destruct (Nat.lt_ge_cases i (List.length rs)) as [Hi|Hi].
    + now rewrite app_nth1.
    + rewrite app_nth2 by exact Hi. rewrite (nth_overflow rs) by exact Hi.
      assert (Hin : In (nth (i - List.length rs) filler []) filler).
      { apply nth_In. rewrite length_app in Hlt. lia. }
      apply repeat_spec in Hin. rewrite Hin.
      destruct j as [|j]; simpl; [reflexivity|].
      clear. do 9 (destruct j as [|j]; [reflexivity|]). now destruct j.
  - rewrite (nth_overflow (map pad (rs ++ filler))) by now rewrite length_map.
    rewrite length_app in Hge.
    rewrite (nth_overflow rs) by lia. reflexivity.
Qed.

(** X3: the display grid adds empty cells only.  It has as many rows as
    the content, and never fewer than 50; every row has at least 20 cells;
    and every cell reads as it does in the content, the added ones empty. *)
Theorem grid_pads_with_empty_cells (content : string) :
  List.length (grid content) = Nat.max 50 (List.length (rows content))
  /\ Forall (fun row => 20 <= List.length row) (grid content)
  /\ forall i j, cell (grid content) i j = cell (rows content) i j.
Proof.
  split; [apply ensureGrid_rows_length|].
  split; [apply ensureGrid_width|].
  intros i j. apply cell_ensureGrid.
Qed.

Lemma ensureGrid_fixed g :
  50 <= List.length g -> Forall (fun row => 20 <= List.length row) g ->
  ensureGrid g = g.
Proof.
  intros Hlen Hw. unfold ensureGrid. cbv zeta.
  replace (50 - List.length g) with 0 by lia. cbn [repeat]. rewrite app_nil_r.
  clear Hlen. induction Hw as [|row g Hrow _ IH]; cbn [map]; [reflexivity|].
  replace (20 - List.length row) with 0 by lia. cbn [repeat].
  now rewrite app_nil_r, IH.
Qed.

Lemma nth_list_set {A} i j (v : A) a d :
  i < List.length a ->
  nth j (list_set i v a) d = if Nat.eqb j i then v else nth j a d.
Proof.
  revert i j; induction a as [|x a IH]; intros i j Hi; simpl in Hi; [lia|].
  destruct i as [|i], j as [|j]; simpl; auto.
  apply IH. lia.
Qed.

Lemma array_set_in_range c v a :
  c < List.length a -> array_set c v a = list_set c v a.
Proof.
  intros Hc. unfold array_set.
  destruct (Nat.ltb_spec c (List.length a)) as [_|H]; [|lia].
  revert c Hc; induction a as [|x a IH]; intros c Hc; simpl in Hc; [lia|].
  destruct c as [|c]; [reflexivity|].
  change (firstn (S c) (x :: a) ++ v :: skipn (S (S c)) (x :: a))
    with (x :: (firstn c a ++ v :: skipn (S c) a)).
  simpl. f_equal. apply IH. lia.
Qed.

Lemma nth_tail_cell i k v :
  nth i (repeat EmptyString k ++ [v]) EmptyString
  = if Nat.eqb i k then v else EmptyString.
Proof.
  revert i; induction k as [|k IH]; intros [|i]; simpl; auto.
  now destruct i.
Qed.

(** Reading a row after [row[c] = val], inside the row or past its end. *)
Lemma nth_array_set j c v a :
  nth j (array_set c v a) EmptyString
  = if Nat.eqb j c then v else nth j a EmptyString.
Proof.
  destruct (Nat.lt_ge_cases c (List.length a)) as [Hc|Hc].
  - rewrite array_set_in_range by exact Hc. now apply nth_list_set.
  - unfold array_set. destruct (Nat.ltb_spec c (List.length a)) as [H|_]; [lia|].
    destruct (Nat.lt_ge_cases j (List.length a)) as [Hj|Hj].
    + rewrite app_nth1 by exact Hj.
      destruct (Nat.eqb_spec j c); [lia | reflexivity].
    + rewrite app_nth2 by exact Hj. rewrite nth_tail_cell.
      rewrite (nth_overflow a) by exact Hj.
      destruct (Nat.eqb_spec (j - List.length a) (c - List.length a)),
               (Nat.eqb_spec j c); try reflexivity; lia.
Qed.

Lemma cell_edited_grid content r c val i j :
  r < List.length (grid content) ->
  cell (edited_grid content r c val) i j
  = if Nat.eqb i r && Nat.eqb j c then val else cell (grid content) i j.
Proof.
  intros Hr. unfold cell, edited_grid. rewrite nth_list_set by exact Hr.
  destruct (Nat.eqb_spec i r) as [->|Hne]; simpl; [|reflexivity].
  apply nth_array_set.
Qed.

(** X4: an edit of a displayed cell with a text free of commas and
    newlines changes that one cell and no other: read back, the stored
    content shows the typed text in the edited cell and every other cell
    as the grid showed it before.  The stored content is then its own
    display grid: a further render pads nothing more. *)
Theorem sheet_edit_changes_one_cell (content : string) (r c : nat) (val : string) :
  r < List.length (grid content) ->
  count_char newline val = 0 ->
  count_char comma val = 0 ->
  exists out,
    handleCellChange content r c val = Some out
    /\ (forall i j, cell (rows out) i j
                    = if Nat.eqb i r && Nat.eqb j c then val
                      else cell (grid content) i j)
    /\ grid out = rows out.
Proof.
  intros Hr Hn Hc.
  destruct (sheet_edit_reads_back content r c val Hr Hn Hc) as (out & Hout & Hrows).
  exists out. split; [exact Hout|]. rewrite Hrows. split.
  - intros i j. now apply cell_edited_grid.
  - unfold grid. rewrite Hrows.
    destruct (edited_grid_shape content r c val Hr) as [Hlen Hw].
    pose proof (ensureGrid_length (rows content)) as H50. fold (grid content) in H50.
    apply ensureGrid_fixed; [lia | exact Hw].
Qed.

Lemma count_in_list_set ch c v a :
  c < List.length a -> count_in ch a = 0 ->
  count_in ch (list_set c v a) = count_char ch v.
Proof.
  revert c; induction a as [|x a IH]; intros c Hc Ha; simpl in *; [lia|].
  destruct c as [|c]; simpl; [lia|].
  rewrite IH; lia.
Qed.

(** X5: cell texts are not escaped.  A comma typed into a cell is stored as
    a separator: read back, the edited row is wider by the number of
    commas typed, and the other rows keep their width. *)
Theorem sheet_comma_shifts_columns (content : string) (r c : nat) (val : string) :
  r < List.length (grid content) ->
  c < List.length (nth r (grid content) []) ->
  count_char newline val = 0 ->
  exists out,
    handleCellChange content r c val = Some out
    /\ List.length (nth r (rows out) [])
       = List.length (nth r (grid content) []) + count_char comma val
    /\ forall i, i <> r -> i < List.length (grid content) ->
                 List.length (nth i (rows out) []) = List.length (nth i (grid content) []).
Proof.
  intros Hr Hc Hn. eexists; split; [now apply handleCellChange_rendered|].
  set (g := edited_grid content r c val).
  assert (Hlines : rows (serialize g) = map (fun row => split comma (join cm row)) g).
  { unfold rows, serialize, nl. rewrite split_join.
    - now rewrite map_map.
    - destruct (edited_grid_shape content r c val Hr) as [Hlen _].
      pose proof (ensureGrid_length (rows content)) as H50. fold (grid content) in H50.
      fold g in Hlen. destruct g; simpl in *; [lia | discriminate].
    - apply Forall_map.
      pose proof (edited_grid_clean newline content r c val (grid_no_newline _) Hn) as H.
      fold g in H. eapply Forall_impl; [|exact H]. simpl. intros row Hrow. unfold cm.
      now rewrite count_char_join_other by exact newline_not_comma. }
  rewrite Hlines.
  assert (Hwidth : forall i, i < List.length g ->
            List.length (nth i (map (fun row => split comma (join cm row)) g) [])
            = pred (List.length (nth i g [])) + count_in comma (nth i g []) + 1).
  { intros i Hi.
    set (f := fun row : list string => split comma (join cm row)).
    rewrite (nth_indep _ [] (f [])) by now rewrite length_map.
    rewrite map_nth. unfold f, cm. rewrite split_length, count_char_join. lia. }
  destruct (edited_grid_shape content r c val Hr) as [Hlen Hw]. fold g in Hlen, Hw.
  pose proof (grid_no_comma content) as Hclean. rewrite Forall_forall in Hclean.
  split.
  - rewrite Hwidth by lia. unfold g, edited_grid.
    rewrite nth_list_set, Nat.eqb_refl by exact Hr.
    rewrite array_set_in_range by exact Hc.
    rewrite list_set_length, count_in_list_set; [lia | exact Hc |].
    apply Hclean, nth_In, Hr.
  - intros i Hne Hi. rewrite Hwidth by lia. unfold g, edited_grid.
    rewrite nth_list_set by exact Hr.
    destruct (Nat.eqb_spec i r); [contradiction|].
    rewrite (Hclean (nth i (grid content) [])) by now apply nth_In.
    pose proof (ensureGrid_width (rows content)) as Hw0. fold (grid content) in Hw0.
    rewrite Forall_forall in Hw0. specialize (Hw0 _ (nth_In _ [] Hi)). lia.
Qed.

End SheetReadBack.

Lemma sheet_edit_changes_one_cell_witness :
  exists out,
    SheetEditor.handleCellChange "a,b" 1 2 "total" = Some out
    /\ (forall i j, Grid.cell (SheetEditor.rows out) i j
                    = if Nat.eqb i 1 && Nat.eqb j 2 then "total"
                      else Grid.cell (SheetEditor.grid "a,b") i j)
    /\ SheetEditor.grid out = SheetEditor.rows out.
Proof.
  apply (sheet_edit_changes_one_cell "a,b" 1 2 "total").
  - vm_compute. lia.
  - reflexivity.
  - reflexivity.
Defined.

Lemma sheet_comma_shifts_columns_witness :
  exists out,
    SheetEditor.handleCellChange "a,b" 0 1 "x,y" = Some out
    /\ List.length (nth 0 (SheetEditor.rows out) [])
       = List.length (nth 0 (SheetEditor.grid "a,b") []) + Js.count_char Js.comma "x,y"
    /\ forall i, i <> 0 -> i < List.length (SheetEditor.grid "a,b") ->
                 List.length (nth i (SheetEditor.rows out) [])
                 = List.length (nth i (SheetEditor.grid "a,b") []).
Proof.
  apply (sheet_comma_shifts_columns "a,b" 0 1 "x,y").
  - vm_compute. lia.
  - vm_compute. lia.
  - reflexivity.
Defined.

(** ** Tabs: opening and closing *)

Section TabAlgebra.

Context {host : Host}.

Lemma State_eta st :
  mkState (apiKey st) (files st) (openTabIds st) (activeTabId st)
          (isGoogleMenuOpen st) (isProcessing st) (currentSpecialist st) (chatInput st)
  = st.
Proof. now destruct st. Qed.

Lemma existsb_eqb_In fid l : existsb (String.eqb fid) l = true <-> In fid l.
Proof.
  rewrite existsb_exists. split.
  - intros (x & Hx & E). apply String.eqb_eq in E. now subst.
  - intros H. exists fid. split; [exact H | apply String.eqb_refl].
Qed.

(** X6: the sidebar click.  Opening a file makes it the active tab and
    puts its id in the open-tab sequence at most once: the sequence has no
    duplicate after the click exactly when it had none before, and a second
    click changes nothing.  No file is touched. *)
Theorem openTab_idempotent (fid : string) (st : State) :
  openTab fid (openTab fid st) = openTab fid st
  /\ activeTabId (openTab fid st) = fid
  /\ In fid (openTabIds (openTab fid st))
  /\ (NoDup (openTabIds (openTab fid st)) <-> NoDup (openTabIds st))
  /\ files (openTab fid st) = files st.
Proof.
  unfold openTab.
  destruct (existsb (String.eqb fid) (openTabIds st)) eqn:E.
  - simpl. rewrite E. repeat split; auto. now apply existsb_eqb_In.
  - simpl.
    assert (Hin : existsb (String.eqb fid) (openTabIds st ++ [fid]) = true).
    { apply existsb_eqb_In, in_or_app. right. now left. }
    rewrite Hin. split; [reflexivity|]. split; [reflexivity|].
    split; [apply in_or_app; right; now left|].
    split; [|reflexivity].
    rewrite NoDup_snoc. split; [tauto|]. intros H. split; [exact H|].
    intros Hc. apply existsb_eqb_In in Hc. congruence.
Qed.

Lemma remaining_In fid open t :
  In t (remaining fid open) <-> In t open /\ t <> fid.
Proof.
  unfold remaining. rewrite filter_In. split; intros [H1 H2]; split; auto.
  - intros ->. now rewrite String.eqb_refl in H2.
  - now apply negb_true_iff, String.eqb_neq.
Qed.

(** X7: the tab's close button.  Closing removes every occurrence of the
    id from the open-tab sequence and keeps exactly the other tabs; the
    file itself stays in the file set; closing again changes nothing. *)
Theorem closeTab_idempotent (fid : string) (st : State) :
  closeTab fid (closeTab fid st) = closeTab fid st
  /\ (forall t, In t (openTabIds (closeTab fid st)) <-> In t (openTabIds st) /\ t <> fid)
  /\ files (closeTab fid st) = files st.
Proof.
  split; [|split].
  - unfold closeTab at 1. rewrite closeTab_openTabIds.
    fold (remaining fid (remaining fid (openTabIds st))).
    rewrite remaining_idempotent.
    destruct (String.eqb_spec (activeTabId (closeTab fid st)) fid) as [E|E].
    + unfold closeTab in *.
      destruct (String.eqb (activeTabId st) fid) eqn:Ea; simpl in *.
      * reflexivity.
      * apply String.eqb_neq in Ea. contradiction.
    + rewrite <- (closeTab_openTabIds fid st).
      unfold setOpenTabIds. apply State_eta.
  - intros t. rewrite closeTab_openTabIds. apply remaining_In.
  - apply closeTab_files.
Qed.


End TabAlgebra.


(** ** Workspace store: contents and ids *)

Section StoreAlgebra.

Context {host : Host}.

Lemma map_update_absent fid c fs :
  ~ In fid (map VirtualFile.id fs) ->
  map (fun f => if String.eqb (VirtualFile.id f) fid
                then VirtualFile.with_content f c else f) fs = fs.
Proof.
  induction fs as [|f fs IH]; simpl; intros Hn; [reflexivity|].
  destruct (String.eqb_spec (VirtualFile.id f) fid) as [E|E].
  - exfalso. apply Hn. now left.
  - rewrite IH; [reflexivity|]. intros Hin. apply Hn. now right.
Qed.

(** X9: an update under an id that no file carries changes nothing. *)
Theorem updateFileContent_unknown_id (fid : string) (c : jsval) (st : State) :
  ~ In fid (ids st) -> updateFileContent fid c st = st.
Proof.
  intros H. unfold updateFileContent, setFiles.
  rewrite map_update_absent by exact H. apply State_eta.
Qed.

(** X10: contents are replaced wholesale.  Of two updates under the same
    id only the second shows, and no update adds, removes, reorders or
    renames a file or touches the tabs. *)
Theorem updateFileContent_last_write_wins (fid : string) (c1 c2 : jsval) (st : State) :
  updateFileContent fid c2 (updateFileContent fid c1 st) = updateFileContent fid c2 st
  /\ map (fun f => (VirtualFile.id f, VirtualFile.name f, VirtualFile.type f))
         (files (updateFileContent fid c1 st))
     = map (fun f => (VirtualFile.id f, VirtualFile.name f, VirtualFile.type f)) (files st)
  /\ openTabIds (updateFileContent fid c1 st) = openTabIds st
  /\ activeTabId (updateFileContent fid c1 st) = activeTabId st.
Proof.
  split; [|split; [|split; reflexivity]].
  - unfold updateFileContent, setFiles. simpl. f_equal.
    rewrite map_map. apply map_ext. intros f.
    destruct (String.eqb (VirtualFile.id f) fid) eqn:E; simpl; now rewrite E.
  - unfold updateFileContent. simpl. rewrite map_map. apply map_ext. intros f.
    now destruct (String.eqb (VirtualFile.id f) fid).
Qed.



(** X13: a file created from the workspace menu, with no name and no
    content supplied, satisfies the [VirtualFile] interface for each of the
    seven file types: its name is [Untitled.] followed by the extension of
    the type, and its content is a string. *)
Theorem menu_file_well_typed (k rnd : string) (st : State) :
  In k VirtualFile.FileType ->
  exists f e,
    files (fst (createNewFile rnd (str k) undefined undefined st)) = files st ++ [f]
    /\ extensions k = Some e
    /\ VirtualFile.name f = str ("Untitled." ++ e)
    /\ VirtualFile.well_typed f = true.
Proof.
  intros Hk. simpl in Hk.
  destruct Hk as [<-|[<-|[<-|[<-|[<-|[<-|[<-|[]]]]]]]];
    eexists; eexists; (split; [reflexivity|]); (split; [reflexivity|]);
    split; reflexivity.
Qed.

End StoreAlgebra.

Lemma updateFileContent_unknown_id_witness :
  updateFileContent "9" (str "lost") two_docs = two_docs.
Proof.
  apply (updateFileContent_unknown_id "9" (str "lost") two_docs).
  vm_compute. intuition discriminate.
Defined.


Lemma menu_file_well_typed_witness :
  exists f e,
    files (fst (createNewFile "0.i" (str "sheet") undefined undefined two_docs))
    = files two_docs ++ [f]
    /\ extensions "sheet" = Some e
    /\ VirtualFile.name f = str ("Untitled." ++ e)
    /\ VirtualFile.well_typed f = true.
Proof.
  apply (menu_file_well_typed "sheet" "0.i" two_docs).
  simpl. tauto.
Defined.

(** ** Invariants of the page *)

Section PageInvariants.

Context {host : Host}.

(** *** Files are never deleted, renamed, retyped or reordered *)

Lemma grows_refl st : grows st st.
Proof. exists []. now rewrite app_nil_r. Qed.

Lemma grows_trans st1 st2 st3 : grows st1 st2 -> grows st2 st3 -> grows st1 st3.
Proof.
  intros [a Ha] [b Hb]. exists (a ++ b). now rewrite Hb, Ha, app_assoc.
Qed.

Lemma grows_same_files st st' : files st' = files st -> grows st st'.
Proof. intros H. exists []. unfold file_keys. now rewrite H, app_nil_r. Qed.

Lemma grows_updateFileContent fid c st : grows st (updateFileContent fid c st).
Proof.
  exists []. rewrite app_nil_r. unfold file_keys, updateFileContent. simpl.
  rewrite map_map. apply map_ext. intros f.
  now destruct (String.eqb (VirtualFile.id f) fid).
Qed.

Lemma grows_createNewFile rnd ty nm ct st :
  grows st (fst (createNewFile rnd ty nm ct st)).
Proof. eexists. unfold file_keys. simpl. now rewrite map_app. Qed.

Lemma grows_dispatch a fs rnd st : grows st (dispatch a fs rnd st).
Proof.
  unfold dispatch.
  destruct (strict_eq (Action.action a) (str "create_file")).
  - destruct (createNewFile_throws _ _); [apply grows_refl | apply grows_createNewFile].
  - destruct (strict_eq (Action.action a) (str "update_file")); [|apply grows_refl].
    destruct (resolveTarget a fs); [apply grows_updateFileContent | apply grows_refl].
Qed.

Lemma grows_extractAction fullText fs rnd st :
  grows st (snd (extractAction fullText fs rnd st)).
Proof.
  unfold extractAction.
  destruct (match_jsonBlock fullText) as [[block stripped]|]; [|apply grows_refl].
  destruct (JSON_parse (str block)) as [actionData|]; [|apply grows_refl].
  simpl. destruct (Action.of_json actionData); [apply grows_dispatch | apply grows_refl].
Qed.

Lemma grows_settle p o now rnd st : grows st (settle p o now rnd st).
Proof.
  destruct o as [fullText|message]; simpl.
  - pose proof (grows_extractAction fullText (snapshot p) rnd
                  (setCurrentSpecialist (specialistOf fullText) st)) as H.
    destruct (extractAction _ _ _ _) as [display st2]. simpl in H.
    eapply grows_trans; [|apply grows_same_files; reflexivity].
    eapply grows_trans; [|apply grows_updateFileContent].
    eapply grows_trans; [|exact H]. now apply grows_same_files.
  - eapply grows_trans; [apply grows_updateFileContent | now apply grows_same_files].
Qed.

Ltac send_cases st :=
  unfold handleSendMessage;
  destruct (String.eqb (trim (chatInput st)) EmptyString || String.eqb (apiKey st) EmptyString);
  [|destruct (activeFile st) as [?f|];
    [destruct (negb (strict_eq (VirtualFile.type f) (str "chat")));
     [|destruct (JSON_parse (VirtualFile.content f)) as [?parsed|];
       [destruct (spread parsed) as [?history|];
        [destruct (negb (forallb renders (files st)));
         [|destruct (negb (forallb readable (history ++ [Message.user (chatInput st) _])))]
        |]
       |]]
    |]].

Lemma grows_send now st : grows st (left_by (handleSendMessage now st) st).
Proof.
  send_cases st; simpl; try apply grows_refl.
  - eapply grows_trans; [apply grows_updateFileContent | now apply grows_same_files].
  - eapply grows_trans; [apply grows_updateFileContent|].
    eapply grows_trans; [|apply grows_same_files; reflexivity].
    eapply grows_trans; [|apply grows_updateFileContent]. now apply grows_same_files.
  - eapply grows_trans; [apply grows_updateFileContent | now apply grows_same_files].
Qed.

Lemma ui_send now sys : ui (send now sys) = left_by (handleSendMessage now (ui sys)) (ui sys).
Proof. unfold send. now destruct (handleSendMessage now (ui sys)). Qed.

Lemma grows_step sys e : grows (ui sys) (ui (step sys e)).
Proof.
  destruct e; cbn [step]; try apply grows_refl.
  - now apply grows_same_files.
  - rewrite ui_send. apply grows_send.
  - destruct (isProcessing (ui sys)); [apply grows_refl|].
    rewrite ui_send. apply grows_send.
  - destruct (nth_error (outstanding sys) i); [apply grows_settle | apply grows_refl].
  - apply grows_createNewFile.
  - destruct (activeFile (ui sys)) as [f|]; [|apply grows_refl].
    destruct (hasEditor f); [apply grows_updateFileContent | apply grows_refl].
  - destruct (findFile fid (files (ui sys))); [|apply grows_refl].
    apply grows_same_files. simpl. unfold openTab.
    now destruct (existsb _ _).
  - destruct (findFile fid (files (ui sys))); [|apply grows_refl].
    destruct (existsb _ _); [|apply grows_refl].
    apply grows_same_files. apply closeTab_files.
Qed.

(** X14: no event deletes, renames, retypes or reorders a file.  Along any
    sequence of events the files of the page keep their place, id, name
    and type; the file set only gets longer.  Closing a tab, in
    particular, deletes nothing. *)
Theorem files_only_grow (sys : System) (trace : list event) :
  exists added,
    file_keys (ui (run sys trace)) = file_keys (ui sys) ++ added.
Proof.
  change (grows (ui sys) (ui (run sys trace))). unfold run.
  revert sys. induction trace as [|e trace IH]; intros sys; simpl.
  - apply grows_refl.
  - eapply grows_trans; [apply grows_step | apply IH].
Qed.

(** *** Tabs name files *)

Lemma hasFile_In fid st : hasFile fid st <-> In fid (map fst (map fst (file_keys st))).
Proof.
  unfold hasFile, findFile, file_keys. rewrite !map_map. simpl. split.
  - intros H. destruct (find _ (files st)) as [f|] eqn:E; [|contradiction].
    apply find_some in E. destruct E as [Hin E]. apply String.eqb_eq in E. subst fid.
    now apply in_map.
  - intros H. apply in_map_iff in H. destruct H as (f & E & Hin).
    intros Hnone. apply (find_none _ _ Hnone) in Hin.
    rewrite E, String.eqb_refl in Hin. discriminate.
Qed.

Lemma hasFile_grows fid st st' : grows st st' -> hasFile fid st -> hasFile fid st'.
Proof.
  intros [added H]. rewrite !hasFile_In, H, !map_app. intros Hin.
  apply in_or_app. now left.
Qed.

Lemma tabs_ok_neutral st st' :
  grows st st' -> openTabIds st' = openTabIds st -> activeTabId st' = activeTabId st ->
  tabs_ok st -> tabs_ok st'.
Proof.
  intros Hg Ho Ha [Hall Hact]. unfold tabs_ok. rewrite Ho, Ha. split; [|exact Hact].
  eapply Forall_impl; [|exact Hall]. intros t. now apply hasFile_grows.
Qed.

Lemma tabs_ok_createNewFile rnd ty nm ct st :
  tabs_ok st -> tabs_ok (fst (createNewFile rnd ty nm ct st)).
Proof.
  intros [Hall _]. split; simpl.
  - apply Forall_app. split.
    + eapply Forall_impl; [|exact Hall]. intros t.
      apply (hasFile_grows t st (fst (createNewFile rnd ty nm ct st))).
      apply grows_createNewFile.
    + constructor; [|constructor].
      apply hasFile_In. unfold file_keys. simpl. rewrite !map_app.
      apply in_or_app. right. now left.
  - right. apply in_or_app. right. now left.
Qed.

Lemma tabs_ok_dispatch a fs rnd st : tabs_ok st -> tabs_ok (dispatch a fs rnd st).
Proof.
  intros H. unfold dispatch.
  destruct (strict_eq (Action.action a) (str "create_file")).
  - destruct (createNewFile_throws _ _); [exact H | now apply tabs_ok_createNewFile].
  - destruct (strict_eq (Action.action a) (str "update_file")); [|exact H].
    destruct (resolveTarget a fs); [|exact H].
    eapply tabs_ok_neutral; eauto using grows_updateFileContent.
Qed.

Lemma tabs_ok_extractAction fullText fs rnd st :
  tabs_ok st -> tabs_ok (snd (extractAction fullText fs rnd st)).
Proof.
  intros H. unfold extractAction.
  destruct (match_jsonBlock fullText) as [[block stripped]|]; [|exact H].
  destruct (JSON_parse (str block)) as [actionData|]; [|exact H].
  simpl. destruct (Action.of_json actionData); [now apply tabs_ok_dispatch | exact H].
Qed.

Lemma tabs_ok_settle p o now rnd st : tabs_ok st -> tabs_ok (settle p o now rnd st).
Proof.
  intros H. destruct o as [fullText|message]; simpl.
  - pose proof (tabs_ok_extractAction fullText (snapshot p) rnd
                  (setCurrentSpecialist (specialistOf fullText) st)) as H2.
    destruct (extractAction _ _ _ _) as [display st2]. simpl in H2.
    assert (H3 : tabs_ok st2) by (apply H2; exact H).
    eapply tabs_ok_neutral; [| | |exact H3]; try reflexivity.
    eapply grows_trans; [apply grows_updateFileContent | now apply grows_same_files].
  - eapply tabs_ok_neutral; [| | |exact H]; try reflexivity.
    eapply grows_trans; [apply grows_updateFileContent | now apply grows_same_files].
Qed.

Lemma tabs_ok_send now st : tabs_ok st -> tabs_ok (left_by (handleSendMessage now st) st).
Proof.
  intros H. eapply tabs_ok_neutral; [apply grows_send | | | exact H];
    send_cases st; reflexivity.
Qed.

Lemma last_in_or_default (l : list string) :
  last l EmptyString = EmptyString \/ In (last l EmptyString) l.
Proof.
  destruct l as [|x l]; [now left|]. right.
  assert (Hne : x :: l <> []) by discriminate.
  destruct (exists_last Hne) as (l' & y & E). rewrite E, last_last.
  apply in_or_app. right. now left.
Qed.

Lemma tabs_ok_closeTab fid st : tabs_ok st -> tabs_ok (closeTab fid st).
Proof.
  intros [Hall Hact]. split.
  - rewrite closeTab_openTabIds. rewrite Forall_forall in *. intros t Ht.
    apply remaining_In in Ht. destruct Ht as [Ht _].
    unfold hasFile. rewrite closeTab_files. now apply Hall.
  - rewrite closeTab_openTabIds.
    destruct (String.eqb_spec (activeTabId st) fid) as [E|E].
    + unfold closeTab. rewrite E, String.eqb_refl. simpl. apply last_in_or_default.
    + rewrite closeTab_inactive by exact E.
      destruct Hact as [H0|Hin]; [now left|]. right. now apply remaining_In.
Qed.

Lemma tabs_ok_openTab fid st : hasFile fid st -> tabs_ok st -> tabs_ok (openTab fid st).
Proof.
  intros Hf [Hall _]. unfold openTab.
  destruct (existsb (String.eqb fid) (openTabIds st)) eqn:E; split; simpl.
  - exact Hall.
  - right. now apply existsb_eqb_In.
  - apply Forall_app. split; [exact Hall | now repeat constructor].
  - right. apply in_or_app. right. now left.
Qed.

Lemma tabs_ok_step sys e : tabs_ok (ui sys) -> tabs_ok (ui (step sys e)).
Proof.
  intros H. destruct e; cbn [step]; try exact H.
  - rewrite ui_send. now apply tabs_ok_send.
  - destruct (isProcessing (ui sys)); [exact H|].
    rewrite ui_send. now apply tabs_ok_send.
  - destruct (nth_error (outstanding sys) i); [now apply tabs_ok_settle | exact H].
  - now apply tabs_ok_createNewFile.
  - destruct (activeFile (ui sys)) as [f|]; [|exact H].
    destruct (hasEditor f); [|exact H]. simpl.
    eapply tabs_ok_neutral; eauto using grows_updateFileContent.
  - destruct (findFile fid (files (ui sys))) eqn:E; [|exact H]. simpl.
    apply tabs_ok_openTab; [|exact H]. unfold hasFile. now rewrite E.
  - destruct (findFile fid (files (ui sys))); [|exact H].
    destruct (existsb _ _); [|exact H]. simpl. now apply tabs_ok_closeTab.
Qed.

(** X15: on every page reached from the initial one, each open tab names a
    file of the file set, and the active tab is one of the open tabs or
    empty; so an active tab that is not empty always has a file to show. *)
Theorem tabs_name_files (key : string) (trace : list event) :
  let st := ui (run (boot key) trace) in
  Forall (fun t => hasFile t st) (openTabIds st)
  /\ (activeTabId st = EmptyString \/ In (activeTabId st) (openTabIds st))
  /\ (activeTabId st = EmptyString \/ activeFile st <> None).
Proof.
  assert (H : tabs_ok (ui (run (boot key) trace))).
  { unfold run. assert (H0 : tabs_ok (ui (boot key))).
    { split; simpl; [|right; now left].
      constructor; [|constructor]. unfold hasFile. simpl. discriminate. }
    revert H0. generalize (boot key) as sys.
    induction trace as [|e trace IH]; intros sys H0; simpl; [exact H0|].
    apply IH. now apply tabs_ok_step. }
  cbv zeta. destruct H as [Hall Hact]. split; [exact Hall|]. split; [exact Hact|].
  destruct Hact as [H0|Hin]; [now left|]. right.
  rewrite Forall_forall in Hall. exact (Hall _ Hin).
Qed.

(** *** Contents stay strings unless the assistant acts *)

Lemma all_strings_updateFileContent fid s st :
  all_strings st = true -> all_strings (updateFileContent fid (str s) st) = true.
Proof.
  unfold all_strings, updateFileContent. simpl. rewrite !forallb_forall.
  intros H f Hin. apply in_map_iff in Hin. destruct Hin as (g & <- & Hg).
  destruct (String.eqb (VirtualFile.id g) fid); [reflexivity | now apply H].
Qed.

Lemma initialContent_default_string ty :
  is_string (initialContent ty undefined) = true.
Proof.
  unfold initialContent. simpl.
  destruct (strict_eq ty (str "sheet")), (strict_eq ty (str "chat")),
           (strict_eq ty (str "code")), (strict_eq ty (str "slide")); reflexivity.
Qed.

Lemma all_strings_send now st :
  all_strings st = true -> all_strings (left_by (handleSendMessage now st) st) = true.
Proof.
  intros H. send_cases st; simpl; try exact H.
  - now apply (all_strings_updateFileContent _ _ st).
  - apply (all_strings_updateFileContent _ _
             (setIsProcessing true (setChatInput EmptyString (updateFileContent _ _ st)))).
    now apply (all_strings_updateFileContent _ _ st).
  - now apply (all_strings_updateFileContent _ _ st).
Qed.

Lemma extractAction_no_action fullText fs rnd st :
  acts (Resolved fullText) = false ->
  extractAction fullText fs rnd st = (fullText, st).
Proof.
  unfold acts, extractAction.
  destruct (match_jsonBlock fullText) as [[block stripped]|]; [|reflexivity].
  destruct (JSON_parse (str block)); [discriminate | reflexivity].
Qed.

Lemma settle_no_action p o now rnd st :
  acts o = false ->
  settle p o now rnd st
  = setIsProcessing false
      (updateFileContent (chatId p)
         (str (JSON_stringify
                 (JArr (newHistory p ++ [replyMessage o (raw_text o) now]))))
         (match o with
          | Resolved fullText => setCurrentSpecialist (specialistOf fullText) st
          | Rejected _ => st
          end)).
Proof.
  intros H. destruct o as [fullText|message]; simpl; [|reflexivity].
  now rewrite extractAction_no_action.
Qed.

Lemma all_strings_step sys e :
  settles_with_action e = false ->
  all_strings (ui sys) = true -> all_strings (ui (step sys e)) = true.
Proof.
  intros He H. destruct e; cbn [step settles_with_action] in *; try exact H.
  - rewrite ui_send. now apply all_strings_send.
  - destruct (isProcessing (ui sys)); [exact H|].
    rewrite ui_send. now apply all_strings_send.
  - destruct (nth_error (outstanding sys) i) as [p|]; [|exact H]. simpl.
    rewrite settle_no_action by exact He.
    destruct o; now apply (all_strings_updateFileContent _ _ _).
  - unfold all_strings in *. simpl. rewrite forallb_app, H. simpl.
    now rewrite initialContent_default_string.
  - destruct (activeFile (ui sys)) as [f|]; [|exact H].
    destruct (hasEditor f); [|exact H]. now apply all_strings_updateFileContent.
  - destruct (findFile fid (files (ui sys))); [|exact H]. simpl.
    unfold openTab. now destruct (existsb _ _).
  - destruct (findFile fid (files (ui sys))); [|exact H].
    destruct (existsb _ _); [|exact H]. simpl.
    unfold all_strings. now rewrite closeTab_files.
Qed.

(** X16: only a directive of the assistant can store a content that is not
    a string.  Along any sequence of events in which no settled reply ends
    in a block that matches and parses, every file's content is a string:
    typing, sending, failed requests, plain replies, the editors, the menu
    and the tabs all keep it so. *)
Theorem contents_stay_strings (key : string) (trace : list event) :
  forallb (fun e => negb (settles_with_action e)) trace = true ->
  all_strings (ui (run (boot key) trace)) = true.
Proof.
  unfold run. assert (H0 : all_strings (ui (boot key)) = true) by reflexivity.
  revert H0. generalize (boot key) as sys.
  induction trace as [|e trace IH]; intros sys H0 Hall; simpl in *; [exact H0|].
  apply andb_true_iff in Hall. destruct Hall as [He Hall].
  apply negb_true_iff in He. apply IH; [|exact Hall].
  now apply all_strings_step.
Qed.

(** *** Requests *)

(** X17: what the RUN button guarantees by itself.  From a page with at
    most one request outstanding and the flag set while it is, any sequence
    of events without Enter in the chat input keeps it so: two requests
    are never outstanding together, and a clear flag means none is. *)
Theorem run_button_single_flight (sys : System) (trace : list event) :
  one_in_flight sys ->
  forallb not_enter trace = true ->
  List.length (outstanding (run sys trace)) <= 1
  /\ (isProcessing (ui (run sys trace)) = false -> outstanding (run sys trace) = []).
Proof.
  intros Hinv Hall.
  assert (H : one_in_flight (run sys trace)).
  { unfold run. revert sys Hinv Hall.
    induction trace as [|e trace IH]; intros sys Hinv Hall; simpl in *; [exact Hinv|].
    apply andb_true_iff in Hall. destruct Hall as [He Hall].
    apply IH; [|exact Hall]. now apply one_in_flight_step. }
  destruct H as [Hlen Hflag]. split; [exact Hlen|].
  intros Hp. destruct (outstanding (run sys trace)) as [|p l]; [reflexivity|].
  assert (isProcessing (ui (run sys trace)) = true) by (apply Hflag; discriminate).
  congruence.
Qed.

Lemma chatInput_extractAction fullText fs rnd st :
  chatInput (snd (extractAction fullText fs rnd st)) = chatInput st
  /\ apiKey (snd (extractAction fullText fs rnd st)) = apiKey st.
Proof.
  unfold extractAction.
  destruct (match_jsonBlock fullText) as [[block stripped]|]; [|now split].
  destruct (JSON_parse (str block)) as [actionData|]; [|now split].
  simpl. destruct (Action.of_json actionData) as [a|]; [|now split].
  unfold dispatch.
  destruct (strict_eq (Action.action a) (str "create_file"));
    [now destruct (createNewFile_throws _ _)|].
  destruct (strict_eq (Action.action a) (str "update_file")); [|now split].
  destruct (resolveTarget a fs); now split.
Qed.

(** X18: the continuation of a send writes from its closure.  Whatever the
    page has become while the request was outstanding, as long as the chat
    file is there, settling stores the history captured at send time plus
    one message, overwriting whatever the chat file held by then; it
    clears the processing flag and leaves the text typed in the chat input
    and the API key alone. *)
Theorem settle_writes_closure_history
  (p : Pending) (o : outcome) (now : Z) (rnd : string) (st : State) :
  hasFile (chatId p) st ->
  exists display,
    holds_history (settle p o now rnd st) (chatId p)
                  (newHistory p ++ [replyMessage o display now])
    /\ isProcessing (settle p o now rnd st) = false
    /\ chatInput (settle p o now rnd st) = chatInput st
    /\ apiKey (settle p o now rnd st) = apiKey st.
Proof.
  intros H. destruct (settle_holds p o now rnd st H) as (display & Hh & Hp).
  exists display. split; [exact Hh|]. split; [exact Hp|].
  destruct o as [fullText|message]; simpl; [|now split].
  pose proof (chatInput_extractAction fullText (snapshot p) rnd
                (setCurrentSpecialist (specialistOf fullText) st)) as Hc.
  destruct (extractAction _ _ _ _) as [d st2]. exact Hc.
Qed.

(** X19: the guards of a send.  With a blank chat input, or with no active
    file, or with an active file that is not a chat, Enter and the RUN
    button leave the page and the outstanding requests exactly as they
    were. *)
Theorem send_rejected_is_noop (sys : System) (now : Z) :
  trim (chatInput (ui sys)) = EmptyString
  \/ match activeFile (ui sys) with
     | Some f => strict_eq (VirtualFile.type f) (str "chat") = false
     | None => True
     end ->
  step sys (PressEnter now) = sys /\ step sys (ClickRun now) = sys.
Proof.
  intros H.
  assert (E : handleSendMessage now (ui sys) = Ignored).
  { destruct H as [H|H]; [now apply handleSendMessage_blank
                         | now apply handleSendMessage_no_chat]. }
  simpl. unfold send. rewrite E. split; [reflexivity|].
  now destruct (isProcessing (ui sys)).
Qed.

(** X21: a request that fails, or a reply that ends in no block that
    matches and parses, changes nothing but the chat file, the specialist
    label and the processing flag.  The message stored carries the whole
    response text (a block that matched but did not parse stays visible);
    tabs, active tab, typed text and every other file are as they were. *)
Theorem settle_without_action_frame
  (p : Pending) (o : outcome) (now : Z) (rnd : string) (st : State) :
  acts o = false ->
  files (settle p o now rnd st)
  = files (updateFileContent (chatId p)
             (str (JSON_stringify
                     (JArr (newHistory p ++ [replyMessage o (raw_text o) now])))) st)
  /\ openTabIds (settle p o now rnd st) = openTabIds st
  /\ activeTabId (settle p o now rnd st) = activeTabId st
  /\ chatInput (settle p o now rnd st) = chatInput st
  /\ currentSpecialist (settle p o now rnd st)
     = match o with
       | Resolved fullText => specialistOf fullText
       | Rejected _ => currentSpecialist st
       end.
Proof.
  intros H. rewrite settle_no_action by exact H.
  destruct o; repeat split.
Qed.

End PageInvariants.

Lemma contents_stay_strings_witness :
  all_strings (ui (run (boot "k") second_enter_trace)) = true.
Proof. apply (contents_stay_strings "k" second_enter_trace). reflexivity. Defined.

Lemma run_button_single_flight_witness :
  let trace := [TypeChat "first"; ClickRun 1; TypeChat "second"; ClickRun 2] in
  List.length (outstanding (run (boot "k") trace)) <= 1
  /\ (isProcessing (ui (run (boot "k") trace)) = false ->
      outstanding (run (boot "k") trace) = []).
Proof.
  apply (run_button_single_flight (boot "k")
           [TypeChat "first"; ClickRun 1; TypeChat "second"; ClickRun 2]).
  - split; simpl; [lia | congruence].
  - reflexivity.
Defined.

Lemma settle_writes_closure_history_witness :
  let p := mkPending "1" [Message.user "first" 1] (files (initial "k")) in
  exists display,
    holds_history (settle p (Rejected "offline") 2 "0.i" (typed_hello "k")) (chatId p)
                  (newHistory p ++ [replyMessage (Rejected "offline") display 2])
    /\ isProcessing (settle p (Rejected "offline") 2 "0.i" (typed_hello "k")) = false
    /\ chatInput (settle p (Rejected "offline") 2 "0.i" (typed_hello "k"))
       = chatInput (typed_hello "k")
    /\ apiKey (settle p (Rejected "offline") 2 "0.i" (typed_hello "k"))
       = apiKey (typed_hello "k").
Proof.
  apply (settle_writes_closure_history
           (mkPending "1" [Message.user "first" 1] (files (initial "k")))
           (Rejected "offline") 2 "0.i" (typed_hello "k")).
  vm_compute. discriminate.
Defined.

Lemma send_rejected_is_noop_witness :
  let sys := mkSystem (setChatInput "   " (initial "k")) [] in
  step sys (PressEnter 1) = sys /\ step sys (ClickRun 1) = sys.
Proof.
  apply (send_rejected_is_noop (mkSystem (setChatInput "   " (initial "k")) []) 1).
  left. reflexivity.
Defined.

Lemma settle_without_action_frame_witness :
  let p := mkPending "1" [Message.user "first" 1] (files (initial "k")) in
  let o := Resolved "**The Liaison:** Hi." in
  files (settle p o 2 "0.i" (typed_hello "k"))
  = files (updateFileContent (chatId p)
             (str (JSON_stringify
                     (JArr (newHistory p ++ [replyMessage o (raw_text o) 2]))))
             (typed_hello "k"))
  /\ openTabIds (settle p o 2 "0.i" (typed_hello "k")) = openTabIds (typed_hello "k")
  /\ activeTabId (settle p o 2 "0.i" (typed_hello "k")) = activeTabId (typed_hello "k")
  /\ chatInput (settle p o 2 "0.i" (typed_hello "k")) = chatInput (typed_hello "k")
  /\ currentSpecialist (settle p o 2 "0.i" (typed_hello "k"))
     = specialistOf "**The Liaison:** Hi.".
Proof.
  apply (settle_without_action_frame
           (mkPending "1" [Message.user "first" 1] (files (initial "k")))
           (Resolved "**The Liaison:** Hi.") 2 "0.i" (typed_hello "k")).
  reflexivity.
Defined.

(** ** Code runner and terminal log *)

Section TerminalProps.

Import Terminal.

Lemma terminal_step_log tm e :
  is_clear e = false ->
  exists added,
    log (step tm e) = log tm ++ added
    /\ List.length added + running (step tm e)
       = running tm + (if is_run e then 2 else 0)
    /\ Forall (fun x => type x <> success) added.
Proof.
  intros He. destruct e as [fileName rnd now|a rnd now|]; [| |discriminate]; simpl.
  - eexists. split; [reflexivity|]. split; [simpl; lia|].
    constructor; [discriminate | constructor].
  - unfold runCode_settle. destruct (running tm) as [|n] eqn:E.
    + exists []. rewrite app_nil_r, E. repeat split; auto.
    + destruct a; (eexists; split; [reflexivity|]; split; [simpl; lia|];
                   constructor; [discriminate | constructor]).
Qed.

(** X23: the terminal log is append-only between two clears, and every run
    leaves exactly two entries in it.  Along any sequence of runs and
    answers without a clear, the entries already shown stay in place, and
    the number of entries added plus the number of runs still awaiting
    their answer is twice the number of runs started; no entry of kind
    [success] is ever written. *)
Theorem terminal_log_accounting (tm : Terminal.t) (trace : list Terminal.event) :
  forallb (fun e => negb (is_clear e)) trace = true ->
  exists added,
    log (run tm trace) = log tm ++ added
    /\ List.length added + running (run tm trace) = running tm + 2 * runs trace
    /\ Forall (fun x => type x <> success) added.
Proof.
  unfold run, runs. revert tm.
  induction trace as [|e trace IH]; intros tm Hall; simpl in *.
  - exists []. rewrite app_nil_r. repeat split; auto.
  - apply andb_true_iff in Hall. destruct Hall as [He Hall].
    apply negb_true_iff in He.
    destruct (terminal_step_log tm e He) as (a1 & H1 & L1 & F1).
    destruct (IH (step tm e) Hall) as (a2 & H2 & L2 & F2).
    exists (a1 ++ a2). split; [now rewrite H2, H1, app_assoc|].
    split; [|now apply Forall_app].
    rewrite length_app. destruct (is_run e); simpl in *; lia.
Qed.

End TerminalProps.

Lemma terminal_log_accounting_witness :
  let trace := [Terminal.Run "a.py" "0.1" 1; Terminal.Run "b.py" "0.2" 2;
                Terminal.Answer (Terminal.Answered None) "0.3" 3] in
  exists added,
    Terminal.log (Terminal.run Terminal.empty trace) = Terminal.log Terminal.empty ++ added
    /\ List.length added + Terminal.running (Terminal.run Terminal.empty trace)
       = Terminal.running Terminal.empty + 2 * Terminal.runs trace
    /\ Forall (fun x => Terminal.type x <> Terminal.success) added.
Proof.
  apply (terminal_log_accounting Terminal.empty
           [Terminal.Run "a.py" "0.1" 1; Terminal.Run "b.py" "0.2" 2;
            Terminal.Answer (Terminal.Answered None) "0.3" 3]).
  reflexivity.
Defined.

(** ** What the assistant can do to the tabs *)

Section AssistantTabs.

Context {host : Host}.

Lemma length_updateFileContent fid c st :
  List.length (files (updateFileContent fid c st)) = List.length (files st).
Proof. unfold updateFileContent. simpl. apply length_map. Qed.

(** X22: a settled request changes the tabs in one way only.  When its
    reply carries a [create_file] directive whose file is created (the
    call does not throw on its [file_type]), one file is added, its id is
    appended to the open tabs and it becomes the active tab; in every
    other case (failure, plain reply, a [create_file] that throws,
    [update_file], the [switch_tab] that the system instruction
    advertises, any other action) the open tabs, the active tab and the
    number of files are what they were. *)
Theorem settle_tabs (p : Pending) (o : outcome) (now : Z) (rnd : string) (st : State) :
  openTabIds (settle p o now rnd st)
  = (if creates o then openTabIds st ++ [newId_of rnd] else openTabIds st)
  /\ activeTabId (settle p o now rnd st)
     = (if creates o then newId_of rnd else activeTabId st)
  /\ List.length (files (settle p o now rnd st))
     = List.length (files st) + (if creates o then 1 else 0).
Proof.
  destruct o as [fullText|message]; unfold creates, directive; simpl.
  2: { rewrite length_map. repeat split. lia. }
  unfold extractAction.
  destruct (match_jsonBlock fullText) as [[block stripped]|];
    [|simpl; rewrite length_map; repeat split; lia].
  destruct (JSON_parse (str block)) as [actionData|];
    [|simpl; rewrite length_map; repeat split; lia].
  destruct (Action.of_json actionData) as [a|];
    [|simpl; rewrite length_map; repeat split; lia].
  unfold dispatch.
  destruct (strict_eq (Action.action a) (str "create_file")).
  - destruct (createNewFile_throws (Action.file_type a) (Action.file_name a)); simpl.
    + rewrite length_map. repeat split. lia.
    + rewrite length_map, length_app. repeat split.
  - destruct (strict_eq (Action.action a) (str "update_file")).
    + destruct (resolveTarget a (snapshot p));
        simpl; rewrite ?length_map; repeat split; lia.
    + simpl. rewrite length_map. repeat split. lia.
Qed.

(** A [create_file] directive without a name and with a [file_type] that
    cannot be converted to a property key creates nothing. *)
Lemma create_file_throws_creates_nothing a fs rnd st :
  Action.action a = str "create_file" ->
  truthy (Action.file_name a) = false ->
  conversion_throws (Action.file_type a) = true ->
  dispatch a fs rnd st = st.
Proof.
  intros Ha Hn Ht. unfold dispatch, createNewFile_throws. now rewrite Ha, Hn, Ht.
Qed.

End AssistantTabs.
